(** * Serial-Studio: network data source and CSV export

    A shallow embedding of two classes of the application:

    - [IO::DataSources::Network] (module [Network] below): the endpoint
      configuration, the DNS lookup flags, the socket selection and the
      socket error handler;
    - [CSV::Export] (module [CsvExport] below): the frame buffer, the row
      writer and the life cycle of the output file.

    Member functions become functions on an explicit object state.  Calls
    into Qt objects and into the other singletons of the application
    (sockets, [QHostInfo], [IO::Manager], the message box, signals) are
    recorded, in program order, in a log that is part of the state; what
    those objects answer (the separator sequence, whether the device is
    connected, whether a file can be opened, ...) is an argument of the
    function that asks.  Qt functions on values ([QHostAddress] parsing,
    [QDateTime::toString], ...) are section variables.

    The output file is its name, whether it is open, and its text; the
    text stream writes through to the file at once.  Strings are byte
    strings: a frame is taken to hold well-formed UTF-8.

    The modules [NetworkSpec] and [CsvExportSpec] hold the properties. *)

From Stdlib Require Import ZArith List String Ascii Bool Lia.
From Stdlib Require Import DecimalString.
Import ListNotations.

Local Open Scope Z_scope.
Local Open Scope list_scope.

(** [QString::number(int)]: the decimal representation of an integer. *)
Definition QString_number (n : Z) : string :=
  NilEmpty.string_of_int (Z.to_int n).

(* ================================================================= *)
(** ** The network endpoint *)

Module Network.

(** [QAbstractSocket::SocketType]. *)
Inductive SocketType : Type :=
  | TcpSocket
  | UdpSocket
  | SctpSocket
  | UnknownSocketType.

(** [QHostInfo::HostInfoError] and the part of [QHostInfo] that
    [lookupFinished] reads. *)
Inductive HostInfoError : Type :=
  | NoError
  | HostNotFound
  | UnknownError.

Record QHostInfo : Type := mkHostInfo {
  error : HostInfoError;
  addresses : list string
}.

(** The signals of the class. *)
Inductive Signal : Type :=
  | portChanged
  | addressChanged
  | lookupActiveChanged
  | udpMulticastChanged
  | socketTypeChanged.

(** The two socket members, [m_tcpSocket] and [m_udpSocket]. *)
Inductive Transport : Type :=
  | Tcp
  | Udp.

(** What the class does to the outside world. *)
Inductive Effect : Type :=
  | Emit (sig : Signal)
  | Abort (t : Transport)
  | DisconnectFromHost (t : Transport)
  | ConnectToHost (host : string) (port : Z)
  | Bind (port : Z) (mode : Z)
  | JoinMulticastGroup (group : string)
  | LookupHost (name : string)
  | ManagerDisconnectDevice
  | ShowMessageBox (title text : string).

(** [QAbstractSocket::BindFlag]. *)
Definition ShareAddress : Z := 1.
Definition DontShareAddress : Z := 2.
Definition ReuseAddressHint : Z := 4.

(** Conversion to [quint16], the type of the three port members. *)
Definition quint16 (n : Z) : Z := n mod 65536.

(** The object.  [tcpErrorString] and [udpErrorString] stand for what
    [errorString()] of the two sockets returns. *)
Record Net : Type := mkNet {
  m_address : string;
  m_tcpPort : Z;
  m_udpLocalPort : Z;
  m_udpRemotePort : Z;
  m_hostExists : bool;
  m_udpMulticast : bool;
  m_lookupActive : bool;
  m_socketType : SocketType;
  tcpErrorString : string;
  udpErrorString : string;
  log : list Effect
}.

(** *** A state monad over the object *)

Definition M (A : Type) : Type := Net -> A * Net.

Definition ret {A : Type} (a : A) : M A := fun s => (a, s).

Definition bind {A B : Type} (m : M A) (k : A -> M B) : M B :=
  fun s => let (a, s') := m s in k a s'.

Definition get {A : Type} (f : Net -> A) : M A := fun s => (f s, s).

Definition modify (f : Net -> Net) : M unit := fun s => (tt, f s).

Definition exec {A : Type} (m : M A) (s : Net) : Net := snd (m s).

Definition eval {A : Type} (m : M A) (s : Net) : A := fst (m s).

Declare Scope net_scope.
Delimit Scope net_scope with net.
Notation "x <- m ;; k" := (bind m (fun x => k))
  (at level 61, m at next level, right associativity) : net_scope.
Notation "m ;; k" := (bind m (fun _ => k))
  (at level 61, right associativity) : net_scope.
Local Open Scope net_scope.

(** Field updates. *)
Definition set_address (v : string) (s : Net) : Net :=
  mkNet v (m_tcpPort s) (m_udpLocalPort s) (m_udpRemotePort s)
        (m_hostExists s) (m_udpMulticast s) (m_lookupActive s)
        (m_socketType s) (tcpErrorString s) (udpErrorString s) (log s).

Definition set_tcpPort (v : Z) (s : Net) : Net :=
  mkNet (m_address s) v (m_udpLocalPort s) (m_udpRemotePort s)
        (m_hostExists s) (m_udpMulticast s) (m_lookupActive s)
        (m_socketType s) (tcpErrorString s) (udpErrorString s) (log s).

Definition set_udpLocalPort (v : Z) (s : Net) : Net :=
  mkNet (m_address s) (m_tcpPort s) v (m_udpRemotePort s)
        (m_hostExists s) (m_udpMulticast s) (m_lookupActive s)
        (m_socketType s) (tcpErrorString s) (udpErrorString s) (log s).

Definition set_udpRemotePort (v : Z) (s : Net) : Net :=
  mkNet (m_address s) (m_tcpPort s) (m_udpLocalPort s) v
        (m_hostExists s) (m_udpMulticast s) (m_lookupActive s)
        (m_socketType s) (tcpErrorString s) (udpErrorString s) (log s).

Definition set_hostExists (v : bool) (s : Net) : Net :=
  mkNet (m_address s) (m_tcpPort s) (m_udpLocalPort s) (m_udpRemotePort s)
        v (m_udpMulticast s) (m_lookupActive s)
        (m_socketType s) (tcpErrorString s) (udpErrorString s) (log s).

Definition set_udpMulticast (v : bool) (s : Net) : Net :=
  mkNet (m_address s) (m_tcpPort s) (m_udpLocalPort s) (m_udpRemotePort s)
        (m_hostExists s) v (m_lookupActive s)
        (m_socketType s) (tcpErrorString s) (udpErrorString s) (log s).

Definition set_lookupActive (v : bool) (s : Net) : Net :=
  mkNet (m_address s) (m_tcpPort s) (m_udpLocalPort s) (m_udpRemotePort s)
        (m_hostExists s) (m_udpMulticast s) v
        (m_socketType s) (tcpErrorString s) (udpErrorString s) (log s).

Definition set_socketType (v : SocketType) (s : Net) : Net :=
  mkNet (m_address s) (m_tcpPort s) (m_udpLocalPort s) (m_udpRemotePort s)
        (m_hostExists s) (m_udpMulticast s) (m_lookupActive s)
        v (tcpErrorString s) (udpErrorString s) (log s).

Definition set_log (v : list Effect) (s : Net) : Net :=
  mkNet (m_address s) (m_tcpPort s) (m_udpLocalPort s) (m_udpRemotePort s)
        (m_hostExists s) (m_udpMulticast s) (m_lookupActive s)
        (m_socketType s) (tcpErrorString s) (udpErrorString s) v.

(** Performing an effect appends it to the log. *)
Definition perform (e : Effect) : M unit :=
  modify (fun s => set_log (log s ++ [e]) s).

Definition Q_EMIT (sig : Signal) : M unit := perform (Emit sig).

(** [tr()] looks a text up in the loaded translation; without one it
    returns the source text. *)
Definition tr (text : string) : string := text.

(** *** Getters *)

Definition remoteAddress : M string := get m_address.
Definition tcpPort : M Z := get m_tcpPort.
Definition udpLocalPort : M Z := get m_udpLocalPort.
Definition udpRemotePort : M Z := get m_udpRemotePort.
Definition udpMulticast : M bool := get m_udpMulticast.
Definition lookupActive : M bool := get m_lookupActive.
Definition socketType : M SocketType := get m_socketType.

Definition socketTypeIndex : M Z :=
  t <- socketType ;;
  match t with
  | TcpSocket => ret 0
  | UdpSocket => ret 1
  | _ => ret (-1)
  end.

Definition configurationOk : M bool :=
  p <- tcpPort ;;
  h <- get m_hostExists ;;
  ret ((0 <? p) && h).

Definition socketTypes : list string := ["TCP"%string; "UDP"%string].

(** *** Setters *)

Definition setSocketType (type : SocketType) : M unit :=
  modify (set_socketType type) ;;
  Q_EMIT socketTypeChanged.

Definition setTcpSocket : M unit := setSocketType TcpSocket.

Definition setUdpSocket : M unit := setSocketType UdpSocket.

Definition disconnectDevice : M unit :=
  perform (Abort Tcp) ;;
  perform (Abort Udp) ;;
  perform (DisconnectFromHost Tcp) ;;
  perform (DisconnectFromHost Udp).

Definition setTcpPort (port : Z) : M unit :=
  modify (set_tcpPort (quint16 port)) ;;
  Q_EMIT portChanged.

Definition setUdpLocalPort (port : Z) : M unit :=
  modify (set_udpLocalPort (quint16 port)) ;;
  Q_EMIT portChanged.

Definition setUdpRemotePort (port : Z) : M unit :=
  modify (set_udpRemotePort (quint16 port)) ;;
  Q_EMIT portChanged.

Definition setUdpMulticast (enabled : bool) : M unit :=
  modify (set_udpMulticast enabled) ;;
  Q_EMIT udpMulticastChanged.

Definition setSocketTypeIndex (index : Z) : M unit :=
  match index with
  | 0 => setTcpSocket
  | 1 => setUdpSocket
  | _ => ret tt
  end.

Definition lookupFinished (info : QHostInfo) : M unit :=
  modify (set_lookupActive false) ;;
  Q_EMIT lookupActiveChanged ;;
  match error info with
  | NoError =>
      if (1 <=? Z.of_nat (List.length (addresses info)))
      then modify (set_hostExists true) ;; Q_EMIT addressChanged
      else ret tt
  | _ => ret tt
  end.

(** The handler reads the error text of the socket selected by
    [socketType()]; [socketError] is only used for the other socket
    types. *)
Definition onErrorOccurred (socketError : Z) : M unit :=
  t <- socketType ;;
  error <- match t with
           | TcpSocket => get tcpErrorString
           | UdpSocket => get udpErrorString
           | _ => ret (QString_number socketError)
           end ;;
  perform ManagerDisconnectDevice ;;
  perform (ShowMessageBox (tr "Network socket error") error).

(** The two [connect] calls of the constructor: [errorOccurred] of either
    socket runs the same slot. *)
Definition errorOccurred (from : Transport) (socketError : Z) : M unit :=
  match from with
  | Tcp => onErrorOccurred socketError
  | Udp => onErrorOccurred socketError
  end.

Section WithQt.

(** Qt and header parts that the class uses:
    [isNull a] is [QHostAddress(a).isNull()], true when [a] does not parse
    as an IPv4 or IPv6 address; [simplified] is [QString::simplified];
    the four defaults are the inline functions of the class header. *)
Variable isNull : string -> bool.
Variable simplified : string -> string.
Variable defaultAddress : string.
Variable defaultTcpPort : Z.
Variable defaultUdpLocalPort : Z.
Variable defaultUdpRemotePort : Z.

Definition lookup (host : string) : M unit :=
  modify (set_lookupActive true) ;;
  Q_EMIT lookupActiveChanged ;;
  perform (LookupHost (simplified host)).

Definition setRemoteAddress (address : string) : M unit :=
  (if isNull address
   then modify (set_hostExists false) ;; lookup address
   else modify (set_hostExists true)) ;;
  modify (set_address address) ;;
  Q_EMIT addressChanged.

(** [openNetworkPort] returns which socket the caller gets, [None] for
    the null pointer. *)
Definition openNetworkPort : M (option Transport) :=
  disconnectDevice ;;
  a <- remoteAddress ;;
  let hostAddr := if String.eqb a "" then defaultAddress else a in
  t <- socketType ;;
  match t with
  | TcpSocket =>
      p <- tcpPort ;;
      perform (ConnectToHost hostAddr p) ;;
      ret (Some Tcp)
  | UdpSocket =>
      p <- udpLocalPort ;;
      perform (Bind p (Z.lor ShareAddress ReuseAddressHint)) ;;
      mc <- udpMulticast ;;
      (if mc
       then g <- get m_address ;; perform (JoinMulticastGroup g)
       else ret tt) ;;
      ret (Some Udp)
  | _ => ret None
  end.

(** The constructor, run on the freshly allocated object: the three
    flags are initialised, the other members are set by the calls of the
    constructor body before they are read. *)
Definition fresh : Net :=
  mkNet "" 0 0 0 false false false UnknownSocketType "" "" [].

Definition Network_ctor : M unit :=
  setRemoteAddress "" ;;
  setTcpPort defaultTcpPort ;;
  setUdpLocalPort defaultUdpLocalPort ;;
  setUdpRemotePort defaultUdpRemotePort ;;
  setSocketType TcpSocket.

(** *** Runs of the object

    Everything that can happen to the object: a call of a public setter
    or method, the DNS callback, or a socket error. *)
Inductive Op : Type :=
  | OpSetRemoteAddress (address : string)
  | OpSetTcpPort (port : Z)
  | OpSetUdpLocalPort (port : Z)
  | OpSetUdpRemotePort (port : Z)
  | OpSetUdpMulticast (enabled : bool)
  | OpSetSocketTypeIndex (index : Z)
  | OpSetSocketType (type : SocketType)
  | OpSetTcpSocket
  | OpSetUdpSocket
  | OpOpenNetworkPort
  | OpDisconnectDevice
  | OpLookupFinished (info : QHostInfo)
  | OpErrorOccurred (from : Transport) (socketError : Z).

Definition step (o : Op) (s : Net) : Net :=
  match o with
  | OpSetRemoteAddress a => exec (setRemoteAddress a) s
  | OpSetTcpPort p => exec (setTcpPort p) s
  | OpSetUdpLocalPort p => exec (setUdpLocalPort p) s
  | OpSetUdpRemotePort p => exec (setUdpRemotePort p) s
  | OpSetUdpMulticast b => exec (setUdpMulticast b) s
  | OpSetSocketTypeIndex i => exec (setSocketTypeIndex i) s
  | OpSetSocketType t => exec (setSocketType t) s
  | OpSetTcpSocket => exec setTcpSocket s
  | OpSetUdpSocket => exec setUdpSocket s
  | OpOpenNetworkPort => exec openNetworkPort s
  | OpDisconnectDevice => exec disconnectDevice s
  | OpLookupFinished info => exec (lookupFinished info) s
  | OpErrorOccurred from e => exec (errorOccurred from e) s
  end.

Definition run (ops : list Op) (s : Net) : Net :=
  fold_left (fun acc o => step o acc) ops s.

End WithQt.

(** *** Observations on the log and on runs *)

(** Counting in the log. *)
Definition isDisconnectCall (e : Effect) : bool :=
  match e with ManagerDisconnectDevice => true | _ => false end.

Definition isAlert (e : Effect) : bool :=
  match e with ShowMessageBox _ _ => true | _ => false end.

Definition isLookup (e : Effect) : bool :=
  match e with LookupHost _ => true | _ => false end.

Definition count (p : Effect -> bool) (l : list Effect) : nat :=
  List.length (filter p l).

(** A lookup that resolved: no error and at least one address. *)
Definition resolved (info : QHostInfo) : bool :=
  match error info with
  | NoError => negb (Nat.eqb (List.length (addresses info)) 0)
  | _ => false
  end.

Definition isLookupFinished (o : Op) : bool :=
  match o with OpLookupFinished _ => true | _ => false end.

(** Operations that cannot mark the host as existing: everything but a
    new remote address and a lookup that resolved. *)
Definition keepsHostUnresolved (o : Op) : bool :=
  match o with
  | OpSetRemoteAddress _ => false
  | OpLookupFinished info => negb (resolved info)
  | _ => true
  end.

(** Operations on the sockets: opening, disconnecting, and the socket
    error handler. *)
Definition isConnectionOp (o : Op) : bool :=
  match o with
  | OpOpenNetworkPort | OpDisconnectDevice | OpErrorOccurred _ _ => true
  | _ => false
  end.

End Network.

(* ================================================================= *)
(** ** The CSV export *)

Module CsvExport.

Local Open Scope string_scope.
Local Open Scope Z_scope.

(** [QDateTime], as the date and the time of day it holds. *)
Record QDateTime : Type := mkDateTime {
  year : Z;
  month : Z;
  day : Z;
  hour : Z;
  minute : Z;
  second : Z;
  msec : Z
}.

(** [CSV::RawFrame]. *)
Record RawFrame : Type := mkRawFrame {
  data : string;
  rxDateTime : QDateTime
}.

(** What [createCsvFile] reads of a [JSON::Dataset]. *)
Record Dataset : Type := mkDataset {
  index : Z;
  title : string
}.

(** The signals of the class. *)
Inductive Signal : Type :=
  | enabledChanged
  | openChanged.

(** What the class does to the outside world, the output file apart. *)
Inductive Effect : Type :=
  | Emit (sig : Signal)
  | ShowMessageBox (title text : string)
  | RevealFile (fileName : string)
  | MkPath (path : string).

(** The other singletons and the file system, as the class sees them
    during one call:
    [IO::Manager] ([separatorSequence], [connected]),
    [UI::Dashboard] ([currentFrameValid], [dashboardTitle]),
    [JSON::Editor] ([groups]: the datasets of each group, in order),
    [QDir] and [QFile] ([homePath], [dirExists], [openSucceeds]),
    [qApp] ([applicationName]) and the clock ([currentDateTime]). *)
Record World : Type := mkWorld {
  separatorSequence : string;
  connected : bool;
  currentFrameValid : bool;
  dashboardTitle : string;
  groups : list (list Dataset);
  homePath : string;
  applicationName : string;
  dirExists : string -> bool;
  openSucceeds : bool;
  currentDateTime : QDateTime
}.

(** The object.  [m_csvFile] is its name, whether it is open and the text
    it holds; [streamDevice] tells whether [m_textStream] is attached to
    [m_csvFile]. *)
Record Exp : Type := mkExp {
  m_fieldCount : Z;
  m_exportEnabled : bool;
  m_frames : list RawFrame;
  csvFileName : string;
  csvOpen : bool;
  csvContents : string;
  streamDevice : bool;
  log : list Effect
}.

Definition set_fieldCount (v : Z) (s : Exp) : Exp :=
  mkExp v (m_exportEnabled s) (m_frames s) (csvFileName s) (csvOpen s)
        (csvContents s) (streamDevice s) (log s).

Definition set_exportEnabled (v : bool) (s : Exp) : Exp :=
  mkExp (m_fieldCount s) v (m_frames s) (csvFileName s) (csvOpen s)
        (csvContents s) (streamDevice s) (log s).

Definition set_frames (v : list RawFrame) (s : Exp) : Exp :=
  mkExp (m_fieldCount s) (m_exportEnabled s) v (csvFileName s) (csvOpen s)
        (csvContents s) (streamDevice s) (log s).

Definition set_csvFileName (v : string) (s : Exp) : Exp :=
  mkExp (m_fieldCount s) (m_exportEnabled s) (m_frames s) v (csvOpen s)
        (csvContents s) (streamDevice s) (log s).

Definition set_csvOpen (v : bool) (s : Exp) : Exp :=
  mkExp (m_fieldCount s) (m_exportEnabled s) (m_frames s) (csvFileName s) v
        (csvContents s) (streamDevice s) (log s).

Definition set_csvContents (v : string) (s : Exp) : Exp :=
  mkExp (m_fieldCount s) (m_exportEnabled s) (m_frames s) (csvFileName s)
        (csvOpen s) v (streamDevice s) (log s).

Definition set_streamDevice (v : bool) (s : Exp) : Exp :=
  mkExp (m_fieldCount s) (m_exportEnabled s) (m_frames s) (csvFileName s)
        (csvOpen s) (csvContents s) v (log s).

Definition perform (e : Effect) (s : Exp) : Exp :=
  mkExp (m_fieldCount s) (m_exportEnabled s) (m_frames s) (csvFileName s)
        (csvOpen s) (csvContents s) (streamDevice s) (log s ++ [e]).

Definition Q_EMIT (sig : Signal) (s : Exp) : Exp := perform (Emit sig) s.

Definition tr (text : string) : string := text.

(** *** Qt strings *)

(** [QString::split(sep)] with the default [Qt::KeepEmptyParts]: the
    pieces between the occurrences of [sep], found from left to right
    without overlap.  [split_from sep skip cur s] scans [s]; [cur] is
    the piece read so far and [skip] counts the characters of a
    separator that are still to be passed over. *)
Fixpoint split_from (sep : string) (skip : nat) (cur : string) (s : string)
  : list string :=
  match s with
  | EmptyString => [cur]
  | String c rest =>
      match skip with
      | S k => split_from sep k cur rest
      | O =>
          if String.prefix sep s
          then cur :: split_from sep (String.length sep - 1) "" rest
          else split_from sep 0 (cur ++ String c "") rest
      end
  end.

(** With an empty separator Qt returns an empty string, each character,
    and an empty string again. *)
Definition split (sep : string) (s : string) : list string :=
  match sep with
  | EmptyString =>
      "" :: map (fun c => String c "") (list_ascii_of_string s) ++ [""]
  | _ => split_from sep 0 "" s
  end.

(** [QString::fromUtf8]: the frame is taken to hold well-formed UTF-8,
    which the stream writes back byte for byte.  This is exact for a
    payload of printable 7-bit characters ([plainAscii] below); other
    bytes may come back changed from Qt. *)
Definition fromUtf8 (bytes : string) : string := bytes.

(** Every character is a printable 7-bit character (codes 32 to 126):
    no NUL, no line end, no byte of a multi-byte sequence. *)
Fixpoint plainAscii (s : string) : bool :=
  match s with
  | EmptyString => true
  | String c rest =>
      (32 <=? nat_of_ascii c)%nat && (nat_of_ascii c <=? 126)%nat
      && plainAscii rest
  end.

(** The UTF-8 byte order mark. *)
Definition byteOrderMark : string :=
  String (ascii_of_nat 239) (String (ascii_of_nat 187)
    (String (ascii_of_nat 191) "")).

(** *** The output file *)

Definition isOpen (s : Exp) : bool := csvOpen s.

Definition exportEnabled (s : Exp) : bool := m_exportEnabled s.

(** [m_textStream << text].  A stream without a device drops the text. *)
Definition stream_write (text : string) (s : Exp) : Exp :=
  if streamDevice s && csvOpen s
  then set_csvContents (csvContents s ++ text) s
  else s.

Fixpoint stream_write_n (n : nat) (text : string) (s : Exp) : Exp :=
  match n with
  | O => s
  | S n' => stream_write_n n' text (stream_write text s)
  end.

Definition openCurrentCsv (s : Exp) : Exp :=
  if isOpen s
  then perform (RevealFile (csvFileName s)) s
  else perform (ShowMessageBox (tr "CSV file not open")
                               (tr "Cannot find CSV export file!")) s.

Definition registerFrame (w : World) (data : string) (s : Exp) : Exp :=
  if negb (connected w) then s
  else if negb (currentFrameValid w) then s
  else if negb (exportEnabled s) then s
  else set_frames (m_frames s ++ [mkRawFrame data (currentDateTime w)]) s.

Section WithQt.

(** [toString d format] is [QDateTime::toString]; [filePath dir name] is
    [QDir(dir).filePath(name)]. *)
Variable toString : QDateTime -> string -> string.
Variable filePath : string -> string -> string.

(** The loop of [createCsvFile] over the datasets: the distinct indexes
    in order of first appearance, with the title of that appearance. *)
Fixpoint collectFields (datasets : list Dataset)
                       (fields : list Z) (titles : list string)
  : list Z * list string :=
  match datasets with
  | [] => (fields, titles)
  | dataset :: rest =>
      if existsb (Z.eqb (index dataset)) fields
      then collectFields rest fields titles
      else collectFields rest (fields ++ [index dataset])
                              (titles ++ [title dataset])
  end.

(** The loop of [createCsvFile] over the titles, [i] the loop index. *)
Fixpoint writeTitles (i : Z) (titles : list string) (s : Exp) : Exp :=
  match titles with
  | [] => s
  | t :: rest =>
      let s1 := stream_write ")" (stream_write (QString_number (i + 1))
                  (stream_write "(field " (stream_write t s))) in
      let s2 := if i <? m_fieldCount s1 - 1
                then stream_write "," s1
                else stream_write (String (ascii_of_nat 10) "") s1 in
      writeTitles (i + 1) rest s2
  end.

Definition createCsvFile (w : World) (frame : RawFrame) (s : Exp) : Exp :=
  let projectTitle := dashboardTitle w in
  let fileName := toString (rxDateTime frame) "HH-mm-ss" ++ ".csv" in
  let format := toString (rxDateTime frame) "yyyy/MMM/dd/" in
  let path := homePath w ++ "/Documents/" ++ applicationName w ++ "/CSV/"
              ++ projectTitle ++ "/" ++ format in
  let s1 := if dirExists w path then s else perform (MkPath path) s in
  let s2 := set_csvFileName (filePath path fileName) s1 in
  if negb (openSucceeds w)
  then
    (* closeFile() is called here with the file not open: it does nothing *)
    perform (ShowMessageBox (tr "CSV File Error")
                            (tr "Cannot open CSV file for writing!")) s2
  else
    (* the file is created or truncated; the stream starts it with the
       byte order mark *)
    let s3 := set_csvContents byteOrderMark
                (set_streamDevice true (set_csvOpen true s2)) in
    let (fields, titles) := collectFields (List.concat (groups w)) [] [] in
    let s4 := set_fieldCount (Z.of_nat (List.length fields)) s3 in
    let s5 := stream_write "RX Date/Time," s4 in
    let s6 := writeTitles 0 titles s5 in
    Q_EMIT openChanged s6.

(** The loop of [writeValues] over the fields of one frame: [count] is
    [fields.count()], [j] the loop index, [rest] the fields from [j] on. *)
Fixpoint writeFields (count : Z) (j : Z) (rest : list string) (s : Exp)
  : Exp :=
  match rest with
  | [] => s
  | field :: rest' =>
      let s1 := stream_write field s in
      let s2 :=
        if j <? count - 1
        then stream_write "," s1
        else
          let d := m_fieldCount s1 - count in
          let s3 := if 0 <? d
                    then stream_write_n (Z.to_nat (d - 1)) "," s1
                    else s1 in
          stream_write (String (ascii_of_nat 10) "") s3 in
      writeFields count (j + 1) rest' s2
  end.

(** The body of the loop of [writeValues] over the frames. *)
Definition writeFrame (w : World) (frame : RawFrame) (s : Exp) : Exp :=
  let sep := separatorSequence w in
  let fields := split sep (fromUtf8 (data frame)) in
  let s1 := if negb (isOpen s) && exportEnabled s
            then createCsvFile w frame s
            else s in
  let s2 := stream_write ","
              (stream_write
                 (toString (rxDateTime frame) "yyyy/MM/dd/ HH:mm:ss::zzz")
                 s1) in
  writeFields (Z.of_nat (List.length fields)) 0 fields s2.

(** [for (i = 0; i < m_frames.count(); ++i)]: the test is made against
    the buffer of the current state; [fuel] bounds the iterations. *)
Fixpoint writeValues_loop (w : World) (fuel : nat) (i : nat) (s : Exp)
  : Exp :=
  match fuel with
  | O => s
  | S fuel' =>
      match nth_error (m_frames s) i with
      | Some frame => writeValues_loop w fuel' (S i) (writeFrame w frame s)
      | None => s
      end
  end.

Definition writeValues (w : World) (s : Exp) : Exp :=
  set_frames [] (writeValues_loop w (List.length (m_frames s)) 0 s).

(** [while (!m_frames.isEmpty()) writeValues();] *)
Fixpoint drainFrames (w : World) (fuel : nat) (s : Exp) : Exp :=
  match fuel with
  | O => s
  | S fuel' =>
      match m_frames s with
      | [] => s
      | _ :: _ => drainFrames w fuel' (writeValues w s)
      end
  end.

Definition closeFile (w : World) (s : Exp) : Exp :=
  if isOpen s
  then
    let s1 := drainFrames w 1 s in
    let s2 := set_fieldCount 0 s1 in
    let s3 := set_csvOpen false s2 in
    let s4 := set_streamDevice false s3 in
    Q_EMIT openChanged s4
  else s.

Definition setExportEnabled (w : World) (enabled : bool) (s : Exp) : Exp :=
  let s1 := Q_EMIT enabledChanged (set_exportEnabled enabled s) in
  if negb (exportEnabled s1) && isOpen s1
  then closeFile w (set_frames [] s1)
  else s1.

(** The constructor. *)
Definition Export_ctor : Exp :=
  mkExp 0 true [] "" false "" false [].

(** *** Runs of the object

    The slots and public methods of the class: [registerFrame] runs on
    [frameReceived], [writeValues] on the 1 Hz timer, [closeFile] on
    [connectedChanged]. *)
Inductive Op : Type :=
  | OpRegisterFrame (w : World) (bytes : string)
  | OpWriteValues (w : World)
  | OpCloseFile (w : World)
  | OpSetExportEnabled (w : World) (enabled : bool)
  | OpOpenCurrentCsv.

Definition step (o : Op) (s : Exp) : Exp :=
  match o with
  | OpRegisterFrame w bytes => registerFrame w bytes s
  | OpWriteValues w => writeValues w s
  | OpCloseFile w => closeFile w s
  | OpSetExportEnabled w enabled => setExportEnabled w enabled s
  | OpOpenCurrentCsv => openCurrentCsv s
  end.

Definition run (ops : list Op) (s : Exp) : Exp :=
  fold_left (fun acc o => step o acc) ops s.

(** The stream has a device exactly when the file is open. *)
Definition consistent (s : Exp) : Prop := streamDevice s = csvOpen s.

(** [s'] differs from [s] in the text of the file at most. *)
Definition sameButContents (s s' : Exp) : Prop :=
  s' = set_csvContents (csvContents s') s.

(** *** The text of a row

    What the loops above send to the stream for one frame, as one
    string.  [fieldsText] follows [writeFields] case by case. *)

Fixpoint commasText (n : nat) : string :=
  match n with
  | O => ""
  | S n' => "," ++ commasText n'
  end.

Definition newline : string := String (ascii_of_nat 10) "".

Fixpoint fieldsText (fieldCount : Z) (count : Z) (j : Z)
                    (rest : list string) : string :=
  match rest with
  | [] => ""
  | field :: rest' =>
      field
      ++ (if j <? count - 1
          then ","
          else
            let d := fieldCount - count in
            (if 0 <? d then commasText (Z.to_nat (d - 1)) else "")
            ++ newline)
      ++ fieldsText fieldCount count (j + 1) rest'
  end.

Definition rowText (w : World) (fieldCount : Z) (frame : RawFrame)
  : string :=
  let fields := split (separatorSequence w) (fromUtf8 (data frame)) in
  toString (rxDateTime frame) "yyyy/MM/dd/ HH:mm:ss::zzz" ++ ","
  ++ fieldsText fieldCount (Z.of_nat (List.length fields)) 0 fields.

Fixpoint rowsText (w : World) (fieldCount : Z) (frames : list RawFrame)
  : string :=
  match frames with
  | [] => ""
  | frame :: rest =>
      rowText w fieldCount frame ++ rowsText w fieldCount rest
  end.

(** The data columns of a row, without the line end: the fields joined
    by commas, then the padding commas. *)
Definition dataColumns (fieldCount : Z) (fields : list string) : string :=
  let d := fieldCount - Z.of_nat (List.length fields) in
  String.concat "," fields
  ++ (if 0 <? d then commasText (Z.to_nat (d - 1)) else "").

(** The number of commas of a text, and the number of comma-separated
    columns of a line: one more than its commas. *)
Fixpoint commaCount (s : string) : nat :=
  match s with
  | EmptyString => O
  | String c rest =>
      if Ascii.eqb c ","%char then S (commaCount rest) else commaCount rest
  end.

Definition columns (line : string) : Z := Z.of_nat (S (commaCount line)).

Definition commaFree (s : string) : Prop := commaCount s = O.

(** The stream is attached to the open file; and the object after [text]
    went to the file. *)
Definition attached (s : Exp) : Prop :=
  streamDevice s = true /\ csvOpen s = true.

Definition written (text : string) (s : Exp) : Exp :=
  set_csvContents (csvContents s ++ text) s.

(** *** The header of the file

    The distinct fields of the schema with their titles, the cells of the
    header row, and the text that [writeTitles] sends to the stream. *)

Definition schemaFields (w : World) : list Z * list string :=
  collectFields (List.concat (groups w)) [] [].

Definition titleCell (i : Z) (t : string) : string :=
  t ++ "(field " ++ QString_number (i + 1) ++ ")".

Fixpoint titleCells (i : Z) (titles : list string) : list string :=
  match titles with
  | [] => []
  | t :: rest => titleCell i t :: titleCells (i + 1) rest
  end.

Fixpoint titlesText (fieldCount : Z) (i : Z) (titles : list string)
  : string :=
  match titles with
  | [] => ""
  | t :: rest =>
      t ++ "(field " ++ QString_number (i + 1) ++ ")"
      ++ (if i <? fieldCount - 1 then "," else newline)
      ++ titlesText fieldCount (i + 1) rest
  end.

(** The name [createCsvFile] gives the file of a frame. *)
Definition csvFilePath (w : World) (frame : RawFrame) : string :=
  filePath
    (homePath w ++ "/Documents/" ++ applicationName w ++ "/CSV/"
     ++ dashboardTitle w ++ "/" ++ toString (rxDateTime frame) "yyyy/MMM/dd/")
    (toString (rxDateTime frame) "HH-mm-ss" ++ ".csv").

(** *** Observations on the log and on runs *)

Definition isAlert (e : Effect) : bool :=
  match e with ShowMessageBox _ _ => true | _ => false end.

Definition isOpenChanged (e : Effect) : bool :=
  match e with Emit openChanged => true | _ => false end.

Definition count (p : Effect -> bool) (l : list Effect) : nat :=
  List.length (filter p l).

(** No negative field count, and none while no file is open. *)
Definition closedWithoutFields (s : Exp) : Prop :=
  0 <= m_fieldCount s /\ (isOpen s = false -> m_fieldCount s = 0).

(** The export disabled, and nothing to write to. *)
Definition silenced (s : Exp) : Prop :=
  exportEnabled s = false /\ isOpen s = false /\ streamDevice s = false.

(** The operation enables the export. *)
Definition enables (o : Op) : bool :=
  match o with OpSetExportEnabled _ true => true | _ => false end.


End WithQt.

End CsvExport.

(* ================================================================= *)
(** ** Sample instances of the Qt parts

    Concrete stand-ins for the Qt functions the two classes are
    parameterised by, used to run the embedding on examples. *)

Module Samples.

Local Open Scope string_scope.

Definition isDigit (c : ascii) : bool :=
  let n := nat_of_ascii c in (48 <=? n)%nat && (n <=? 57)%nat.

Fixpoint decimalValue (acc : nat) (s : string) : option nat :=
  match s with
  | EmptyString => Some acc
  | String c rest =>
      if isDigit c
      then decimalValue (10 * acc + (nat_of_ascii c - 48)) rest
      else None
  end.

Definition isOctet (s : string) : bool :=
  match s with
  | EmptyString => false
  | _ =>
      (String.length s <=? 3)%nat &&
      match decimalValue 0 s with
      | Some v => (v <=? 255)%nat
      | None => false
      end
  end.

(** An address in dotted-quad notation. *)
Definition isDottedQuad (a : string) : bool :=
  match CsvExport.split "." a with
  | [a1; a2; a3; a4] => isOctet a1 && isOctet a2 && isOctet a3 && isOctet a4
  | _ => false
  end.

Definition isNull (a : string) : bool := negb (isDottedQuad a).

Definition simplified (s : string) : string := s.

Definition defaultAddress : string := "127.0.0.1".
Definition defaultTcpPort : Z := 23.
Definition defaultUdpLocalPort : Z := 0.
Definition defaultUdpRemotePort : Z := 53.

Definition pad (width : nat) (n : Z) : string :=
  let digits := QString_number n in
  String.concat "" (repeat "0" (width - String.length digits)) ++ digits.

Definition monthName (m : Z) : string :=
  nth (Z.to_nat (m - 1))
      ["Jan"; "Feb"; "Mar"; "Apr"; "May"; "Jun";
       "Jul"; "Aug"; "Sep"; "Oct"; "Nov"; "Dec"] "".

(** The three formats that [CsvExport] asks for. *)
Definition toString (d : CsvExport.QDateTime) (format : string) : string :=
  let hms sep := pad 2 (CsvExport.hour d) ++ sep ++ pad 2 (CsvExport.minute d)
                 ++ sep ++ pad 2 (CsvExport.second d) in
  if String.eqb format "HH-mm-ss" then hms "-"
  else if String.eqb format "yyyy/MMM/dd/"
  then pad 4 (CsvExport.year d) ++ "/" ++ monthName (CsvExport.month d)
       ++ "/" ++ pad 2 (CsvExport.day d) ++ "/"
  else pad 4 (CsvExport.year d) ++ "/" ++ pad 2 (CsvExport.month d)
       ++ "/" ++ pad 2 (CsvExport.day d) ++ "/ " ++ hms ":"
       ++ "::" ++ pad 3 (CsvExport.msec d).

Fixpoint endsWithSlash (s : string) : bool :=
  match s with
  | EmptyString => false
  | String c EmptyString => Ascii.eqb c "/"%char
  | String _ rest => endsWithSlash rest
  end.

Definition filePath (dir name : string) : string :=
  if endsWithSlash dir then dir ++ name else dir ++ "/" ++ name.

(** A project with three fields, a connected device and a frame on the
    dashboard. *)
Definition world : CsvExport.World :=
  CsvExport.mkWorld "," true true "Project"
    [[CsvExport.mkDataset 1 "A"; CsvExport.mkDataset 2 "B"];
     [CsvExport.mkDataset 2 "B"; CsvExport.mkDataset 3 "C"]]
    "/home/user" "SerialStudio" (fun _ => true) true
    (CsvExport.mkDateTime 2022 3 14 15 9 26 535).

(** The same with the device disconnected. *)
Definition world_disconnected : CsvExport.World :=
  CsvExport.mkWorld "," false true "Project"
    [[CsvExport.mkDataset 1 "A"; CsvExport.mkDataset 2 "B"];
     [CsvExport.mkDataset 2 "B"; CsvExport.mkDataset 3 "C"]]
    "/home/user" "SerialStudio" (fun _ => true) true
    (CsvExport.mkDateTime 2022 3 14 15 9 26 535).

(** The same with a file system that refuses to open the file. *)
Definition world_unwritable : CsvExport.World :=
  CsvExport.mkWorld "," true true "Project"
    [[CsvExport.mkDataset 1 "A"; CsvExport.mkDataset 2 "B"];
     [CsvExport.mkDataset 2 "B"; CsvExport.mkDataset 3 "C"]]
    "/home/user" "SerialStudio" (fun _ => false) false
    (CsvExport.mkDateTime 2022 3 14 15 9 26 535).

(** The same with a project without datasets. *)
Definition world_no_schema : CsvExport.World :=
  CsvExport.mkWorld "," true true "Project" [[]; []]
    "/home/user" "SerialStudio" (fun _ => true) true
    (CsvExport.mkDateTime 2022 3 14 15 9 26 535).

(** An export object with an open file of three fields. *)
Definition opened : CsvExport.Exp :=
  CsvExport.mkExp 3 true [] "/home/user/out.csv" true "" true [].

End Samples.

(* ================================================================= *)
(** ** Properties of the network endpoint *)

Module NetworkSpec.

Import Network.
Local Open Scope Z_scope.

Ltac net_unfold :=
  unfold exec, eval, configurationOk, socketTypeIndex, setSocketTypeIndex,
    setTcpSocket, setUdpSocket, setSocketType, setTcpPort, setUdpLocalPort,
    setUdpRemotePort, setUdpMulticast, setRemoteAddress, lookup,
    lookupFinished, errorOccurred, onErrorOccurred, openNetworkPort,
    disconnectDevice, remoteAddress, tcpPort, udpLocalPort, udpRemotePort,
    udpMulticast, lookupActive, socketType, Q_EMIT, perform, bind, ret, get,
    modify in *.

Lemma count_app (p : Effect -> bool) (l1 l2 : list Effect) :
  count p (l1 ++ l2) = (count p l1 + count p l2)%nat.
Proof.
  unfold count. rewrite filter_app, length_app. reflexivity.
Qed.

(** C3: [configurationOk()] is true exactly when the TCP port is greater
    than 0 and the host is marked as existing, and it leaves the object
    as it was; with port 0 and an existing host it is false, with port
    7777 and no existing host it is false, with port 7777 and an existing
    host it is true. *)
Theorem configurationOk_iff (s : Net) :
  (eval configurationOk s = true <-> 0 < m_tcpPort s /\ m_hostExists s = true)
  /\ exec configurationOk s = s
  /\ eval configurationOk (set_hostExists true (exec (setTcpPort 0) s)) = false
  /\ eval configurationOk (set_hostExists false (exec (setTcpPort 7777) s)) = false
  /\ eval configurationOk (set_hostExists true (exec (setTcpPort 7777) s)) = true.
Proof.
  split; [| repeat split].
  net_unfold; simpl. rewrite andb_true_iff, Z.ltb_lt. tauto.
Qed.

(** C10: an index other than 0 and 1 leaves the whole object unchanged,
    the log included; [socketTypeIndex()] is 0 for a TCP socket, 1 for a
    UDP socket and -1 for the other socket types. *)
Theorem setSocketTypeIndex_other (index : Z) (s : Net) :
  index <> 0 -> index <> 1 ->
  exec (setSocketTypeIndex index) s = s
  /\ eval socketTypeIndex (set_socketType TcpSocket s) = 0
  /\ eval socketTypeIndex (set_socketType UdpSocket s) = 1
  /\ eval socketTypeIndex (set_socketType SctpSocket s) = -1
  /\ eval socketTypeIndex (set_socketType UnknownSocketType s) = -1
  /\ exec socketTypeIndex s = s.
Proof.
  intros H0 H1. split; [| repeat split].
  - destruct index as [|p|p]; try congruence; try reflexivity.
    destruct p; try congruence; reflexivity.
  - net_unfold; simpl. destruct (m_socketType s); reflexivity.
Qed.

Lemma setSocketTypeIndex_other_witness :
  2 <> 0 /\ 2 <> 1 /\
  exec (setSocketTypeIndex 2)
       (exec (Network_ctor Samples.isNull Samples.simplified 23 0 53) fresh)
  = exec (Network_ctor Samples.isNull Samples.simplified 23 0 53) fresh.
Proof.
  split; [lia | split; [lia |]].
  apply (setSocketTypeIndex_other 2); lia.
Defined.

Section WithQt.

Variable isNull : string -> bool.
Variable simplified : string -> string.
Variable defaultAddress : string.

(** C4: for an address that parses as an IP address, [setRemoteAddress]
    marks the host as existing before it returns, leaves [m_lookupActive]
    as it was and starts no lookup: the address-changed signal is all it
    adds to the log. *)
Theorem setRemoteAddress_literal (address : string) (s : Net) :
  isNull address = false ->
  let s' := exec (setRemoteAddress isNull simplified address) s in
  m_hostExists s' = true
  /\ m_lookupActive s' = m_lookupActive s
  /\ m_address s' = address
  /\ log s' = log s ++ [Emit addressChanged]
  /\ count isLookup (log s') = count isLookup (log s).
Proof.
  intros Hip. net_unfold. rewrite Hip. simpl.
  repeat split. rewrite count_app. unfold count at 2. simpl. lia.
Qed.

(** *** The lookup flags along a run *)

Lemma step_keeps_lookupActive (o : Op) (s : Net) :
  isLookupFinished o = false ->
  m_lookupActive s = true ->
  m_lookupActive (step isNull simplified defaultAddress o s) = true.
Proof.
  intros Ho Hs. destruct o; simpl in Ho; try discriminate; simpl;
    net_unfold; simpl; try assumption.
  - destruct (isNull address); simpl; auto.
  - destruct index as [|p|p]; simpl; auto. destruct p; simpl; auto.
  - destruct (m_socketType s); simpl; auto.
    destruct (m_udpMulticast s); simpl; auto.
  - destruct from; destruct (m_socketType s); simpl; auto.
Qed.

Lemma run_keeps_lookupActive (ops : list Op) :
  forall s : Net,
    forallb (fun o => negb (isLookupFinished o)) ops = true ->
    m_lookupActive s = true ->
    m_lookupActive (run isNull simplified defaultAddress ops s) = true.
Proof.
  induction ops as [|o ops IH]; intros s Hops Hs; simpl in *.
  - assumption.
  - apply andb_true_iff in Hops as [Ho Hops].
    apply negb_true_iff in Ho.
    apply IH; [assumption |].
    apply step_keeps_lookupActive; assumption.
Qed.

Lemma lookupFinished_hostExists (info : QHostInfo) (s : Net) :
  m_hostExists (exec (lookupFinished info) s)
  = m_hostExists s || resolved info.
Proof.
  net_unfold. unfold resolved.
  destruct (error info); simpl; try (rewrite orb_false_r; reflexivity).
  destruct (addresses info) as [|a l]; simpl.
  - rewrite orb_false_r. reflexivity.
  - replace (1 <=? Z.pos (Pos.of_succ_nat (List.length l))) with true
      by (symmetry; apply Z.leb_le; lia).
    simpl. rewrite orb_true_r. reflexivity.
Qed.

Lemma step_keeps_hostUnresolved (o : Op) (s : Net) :
  keepsHostUnresolved o = true ->
  m_hostExists s = false ->
  m_hostExists (step isNull simplified defaultAddress o s) = false.
Proof.
  intros Ho Hs. destruct o; simpl in Ho; try discriminate; simpl.
  all: try (rewrite lookupFinished_hostExists, Hs;
            apply negb_true_iff in Ho; rewrite Ho; reflexivity).
  all: net_unfold; simpl; try assumption.
  - destruct index as [|p|p]; simpl; auto. destruct p; simpl; auto.
  - destruct (m_socketType s); simpl; auto.
    destruct (m_udpMulticast s); simpl; auto.
  - destruct from; destruct (m_socketType s); simpl; auto.
Qed.

Lemma run_keeps_hostUnresolved (ops : list Op) :
  forall s : Net,
    forallb keepsHostUnresolved ops = true ->
    m_hostExists s = false ->
    m_hostExists (run isNull simplified defaultAddress ops s) = false.
Proof.
  induction ops as [|o ops IH]; intros s Hops Hs; simpl in *.
  - assumption.
  - apply andb_true_iff in Hops as [Ho Hops].
    apply IH; [assumption |].
    apply step_keeps_hostUnresolved; assumption.
Qed.

(** C5: for an address that does not parse as an IP address,
    [setRemoteAddress] marks the host as not existing, sets
    [m_lookupActive] and requests the lookup.  Along every run of
    operations of the object, [m_lookupActive] stays true as long as
    [lookupFinished] has not run, and is false once it has.  In that
    run the host stays marked as not existing unless a new remote address
    is set or a lookup finishes without error and with at least one
    address; [lookupFinished] itself marks the host as existing exactly
    then, and otherwise leaves the mark as it was. *)
Theorem setRemoteAddress_hostname (address : string) (s : Net) :
  isNull address = true ->
  let s1 := exec (setRemoteAddress isNull simplified address) s in
  let go ops := run isNull simplified defaultAddress ops s1 in
  m_hostExists s1 = false
  /\ m_lookupActive s1 = true
  /\ log s1 = log s ++ [Emit lookupActiveChanged;
                        LookupHost (simplified address);
                        Emit addressChanged]
  /\ (forall ops,
        forallb (fun o => negb (isLookupFinished o)) ops = true ->
        m_lookupActive (go ops) = true)
  /\ (forall ops info,
        m_lookupActive (exec (lookupFinished info) (go ops)) = false)
  /\ (forall ops,
        forallb keepsHostUnresolved ops = true ->
        m_hostExists (go ops) = false)
  /\ (forall info s0,
        m_hostExists (exec (lookupFinished info) s0)
        = m_hostExists s0 || resolved info).
Proof.
  intros Hname s1 go.
  assert (Hh : m_hostExists s1 = false).
  { subst s1. net_unfold. rewrite Hname. reflexivity. }
  assert (Hl : m_lookupActive s1 = true).
  { subst s1. net_unfold. rewrite Hname. reflexivity. }
  split; [exact Hh |]. split; [exact Hl |]. split.
  { subst s1. net_unfold. rewrite Hname. simpl.
    repeat rewrite <- app_assoc. reflexivity. }
  split.
  { intros ops Hops. apply run_keeps_lookupActive; assumption. }
  split.
  { intros ops info. net_unfold.
    destruct (error info); simpl; auto.
    destruct (1 <=? Z.of_nat (List.length (addresses info))); reflexivity. }
  split.
  { intros ops Hops. apply run_keeps_hostUnresolved; assumption. }
  apply lookupFinished_hostExists.
Qed.

End WithQt.

(** C9: when a lookup ends with an error, or without error but with no
    address, [lookupFinished] clears [m_lookupActive], announces that
    change, and does nothing else: the host mark keeps its value (so it
    stays false when it was false), no message box is shown and no other
    member changes. *)
Theorem lookupFinished_failure (info : QHostInfo) (s : Net) :
  error info <> NoError \/ addresses info = [] ->
  let s' := exec (lookupFinished info) s in
  s' = set_log (log s ++ [Emit lookupActiveChanged]) (set_lookupActive false s)
  /\ m_hostExists s' = m_hostExists s
  /\ m_lookupActive s' = false
  /\ count isAlert (log s') = count isAlert (log s).
Proof.
  intros Hfail s'.
  assert (Hs : s' = set_log (log s ++ [Emit lookupActiveChanged])
                            (set_lookupActive false s)).
  { subst s'. net_unfold.
    destruct Hfail as [Herr | Hnone].
    - destruct (error info); [congruence | reflexivity | reflexivity].
    - rewrite Hnone. destruct (error info); reflexivity. }
  rewrite Hs. repeat split. simpl.
  rewrite count_app. unfold count at 2. simpl. lia.
Qed.

(** C7: a socket error of either socket runs the same handler, which
    calls [disconnectDevice] of the device manager once and shows one
    message box, whatever the socket type selected; nothing else
    changes. *)
Theorem errorOccurred_once (from : Transport) (socketError : Z) (s : Net) :
  let s' := exec (errorOccurred from socketError) s in
  let text := match m_socketType s with
              | TcpSocket => tcpErrorString s
              | UdpSocket => udpErrorString s
              | _ => QString_number socketError
              end in
  log s' = log s ++ [ManagerDisconnectDevice;
                     ShowMessageBox "Network socket error" text]
  /\ count isDisconnectCall (log s') = S (count isDisconnectCall (log s))
  /\ count isAlert (log s') = S (count isAlert (log s))
  /\ s' = exec (onErrorOccurred socketError) s
  /\ set_log (log s) s' = s.
Proof.
  intros s' text.
  assert (Hs : s' = exec (onErrorOccurred socketError) s).
  { subst s'. destruct from; reflexivity. }
  assert (Hlog : log s' = log s ++ [ManagerDisconnectDevice;
                   ShowMessageBox "Network socket error" text]).
  { rewrite Hs. subst text. net_unfold. unfold tr.
    destruct (m_socketType s); simpl; rewrite <- app_assoc; reflexivity. }
  split; [exact Hlog |].
  split; [rewrite Hlog, count_app; unfold count at 2; simpl; lia |].
  split; [rewrite Hlog, count_app; unfold count at 2; simpl; lia |].
  split; [exact Hs |].
  rewrite Hs. net_unfold. destruct s as [a tp ul ur he mc la st te ue l].
  destruct st; reflexivity.
Qed.

Section Open.

Variable defaultAddress : string.

(** C8: [openNetworkPort] first aborts and disconnects both sockets.
    Then, for the TCP socket type, it connects the TCP socket to the
    remote address (the default address when that is empty) and the TCP
    port, and returns the TCP socket; for the UDP socket type it binds
    the UDP socket to the local port with the share-address and
    reuse-address flags, joins the multicast group of the configured
    address exactly when multicast is set, and returns the UDP socket;
    for any other socket type it returns the null pointer.  No member
    changes. *)
Theorem openNetworkPort_spec (s : Net) :
  let hostAddr := if String.eqb (m_address s) "" then defaultAddress
                  else m_address s in
  let teardown := [Abort Tcp; Abort Udp;
                   DisconnectFromHost Tcp; DisconnectFromHost Udp] in
  let handle := eval (openNetworkPort defaultAddress) s in
  let s' := exec (openNetworkPort defaultAddress) s in
  set_log (log s) s' = s
  /\ match m_socketType s with
     | TcpSocket =>
         handle = Some Tcp
         /\ log s' = log s ++ teardown
                     ++ [ConnectToHost hostAddr (m_tcpPort s)]
     | UdpSocket =>
         handle = Some Udp
         /\ log s' = log s ++ teardown
                     ++ Bind (m_udpLocalPort s)
                             (Z.lor ShareAddress ReuseAddressHint)
                        :: (if m_udpMulticast s
                            then [JoinMulticastGroup (m_address s)]
                            else [])
     | _ =>
         handle = None /\ log s' = log s ++ teardown
     end
  /\ Z.land (Z.lor ShareAddress ReuseAddressHint) ReuseAddressHint
     = ReuseAddressHint.
Proof.
  intros hostAddr teardown handle s'.
  subst hostAddr teardown handle s'. net_unfold. destruct s as
    [a tp ul ur he mc la st te ue l]. simpl.
  split; [| split; [| reflexivity]].
  - destruct st; simpl; try reflexivity. destruct mc; reflexivity.
  - destruct st; simpl; repeat rewrite <- app_assoc; simpl; auto.
    destruct mc; simpl; repeat rewrite <- app_assoc; simpl; auto.
Qed.

End Open.

Lemma setRemoteAddress_literal_witness :
  Samples.isNull "192.168.1.10" = false
  /\ m_hostExists
       (exec (setRemoteAddress Samples.isNull Samples.simplified
                               "192.168.1.10") fresh) = true.
Proof.
  split; [reflexivity |].
  exact (proj1 (setRemoteAddress_literal Samples.isNull Samples.simplified
                  "192.168.1.10" fresh eq_refl)).
Defined.

Lemma setRemoteAddress_hostname_witness :
  Samples.isNull "serial-studio.local" = true
  /\ m_lookupActive
       (exec (setRemoteAddress Samples.isNull Samples.simplified
                               "serial-studio.local") fresh) = true.
Proof.
  split; [reflexivity |].
  exact (proj1 (proj2 (setRemoteAddress_hostname Samples.isNull
                         Samples.simplified Samples.defaultAddress
                         "serial-studio.local" fresh eq_refl))).
Defined.

Lemma lookupFinished_failure_witness :
  (error (mkHostInfo HostNotFound []) <> NoError
   \/ addresses (mkHostInfo HostNotFound []) = [])
  /\ m_hostExists
       (exec (lookupFinished (mkHostInfo HostNotFound []))
             (exec (setRemoteAddress Samples.isNull Samples.simplified
                                     "no-such-host") fresh)) = false.
Proof.
  split; [right; reflexivity |].
  exact (proj1 (proj2 (lookupFinished_failure (mkHostInfo HostNotFound [])
                         (exec (setRemoteAddress Samples.isNull
                                  Samples.simplified "no-such-host") fresh)
                         (or_intror eq_refl)))).
Defined.

(** The constructed object, with the defaults of the class header, opens
    a TCP connection to the default address. *)
Example openNetworkPort_constructed :
  let s := exec (Network_ctor Samples.isNull Samples.simplified
                              Samples.defaultTcpPort
                              Samples.defaultUdpLocalPort
                              Samples.defaultUdpRemotePort) fresh in
  eval (openNetworkPort Samples.defaultAddress) s = Some Tcp
  /\ last (log (exec (openNetworkPort Samples.defaultAddress) s))
          (Emit portChanged)
     = ConnectToHost "127.0.0.1" 23
  /\ eval configurationOk s = false
  /\ m_lookupActive s = true.
Proof.
  repeat split.
Qed.

End NetworkSpec.

(* ================================================================= *)
(** ** Properties of the CSV export *)

Module CsvExportSpec.

Import CsvExport.
Local Open Scope string_scope.
Local Open Scope Z_scope.

(** *** Strings *)

Lemma append_assoc (a b c : string) : (a ++ b) ++ c = a ++ (b ++ c).
Proof.
  induction a as [|x a IH]; simpl; [reflexivity | rewrite IH; reflexivity].
Qed.

Lemma append_nil_r (a : string) : a ++ "" = a.
Proof.
  induction a as [|x a IH]; simpl; [reflexivity | rewrite IH; reflexivity].
Qed.

Lemma commaCount_app (a b : string) :
  commaCount (a ++ b) = (commaCount a + commaCount b)%nat.
Proof.
  induction a as [|x a IH]; simpl; [reflexivity |].
  destruct (Ascii.eqb x ","%char); simpl; rewrite IH; reflexivity.
Qed.

Lemma commaCount_commasText (n : nat) : commaCount (commasText n) = n.
Proof.
  induction n as [|n IH]; simpl; [reflexivity | rewrite IH; reflexivity].
Qed.

Lemma commaCount_concat (fields : list string) :
  Forall commaFree fields ->
  fields <> [] ->
  commaCount (String.concat "," fields) = (List.length fields - 1)%nat.
Proof.
  induction fields as [|f rest IH]; intros Hfree Hne; [congruence |].
  inversion Hfree as [|? ? Hf Hrest]; subst.
  destruct rest as [|g rest'].
  - simpl. exact Hf.
  - change (String.concat "," (f :: g :: rest'))
      with (f ++ "," ++ String.concat "," (g :: rest')).
    rewrite !commaCount_app, Hf, IH by (assumption || discriminate).
    simpl. lia.
Qed.

(** [split] always returns at least one piece. *)
Lemma split_from_nonempty (sep : string) (s : string) :
  forall skip cur, split_from sep skip cur s <> [].
Proof.
  induction s as [|c s IH]; intros skip cur; simpl; [discriminate |].
  destruct skip; [| apply IH].
  match goal with
  | |- (if ?b then _ else _) <> _ => destruct b
  end; [discriminate | apply IH].
Qed.

Lemma split_nonempty (sep s : string) : split sep s <> [].
Proof.
  destruct sep; simpl; [discriminate | apply split_from_nonempty].
Qed.

(** With the comma as separator no piece holds a comma. *)
Lemma prefix_comma (c : ascii) (s : string) :
  String.prefix "," (String c s) = Ascii.eqb c ","%char.
Proof.
  change (String.prefix "," (String c s))
    with (if ascii_dec ","%char c then String.prefix "" s else false).
  destruct (ascii_dec ","%char c) as [Heq | Hneq].
  - subst c. destruct s; reflexivity.
  - symmetry. apply Ascii.eqb_neq. congruence.
Qed.

Lemma split_from_comma_free (s : string) :
  forall cur : string,
    commaFree cur -> Forall commaFree (split_from "," 0 cur s).
Proof.
  induction s as [|c s IH]; intros cur Hcur.
  - constructor; [exact Hcur | constructor].
  - change (split_from "," 0 cur (String c s))
      with (if String.prefix "," (String c s)
            then cur :: split_from "," 0 "" s
            else split_from "," 0 (cur ++ String c "") s).
    rewrite prefix_comma. destruct (Ascii.eqb c ","%char) eqn:Hc.
    + constructor; [exact Hcur |]. apply IH. reflexivity.
    + apply IH. unfold commaFree in *. rewrite commaCount_app, Hcur.
      simpl. rewrite Hc. reflexivity.
Qed.

Lemma split_comma_free (s : string) : Forall commaFree (split "," s).
Proof.
  apply split_from_comma_free. reflexivity.
Qed.

(** *** Writing to the attached stream *)

Lemma written_nil (s : Exp) : written "" s = s.
Proof.
  unfold written. rewrite append_nil_r. destruct s; reflexivity.
Qed.

Lemma written_written (a b : string) (s : Exp) :
  written b (written a s) = written (a ++ b) s.
Proof.
  unfold written. simpl. rewrite append_assoc. reflexivity.
Qed.

Lemma attached_written (text : string) (s : Exp) :
  attached s -> attached (written text s).
Proof.
  intros [Hd Ho]. split; assumption.
Qed.

Lemma stream_write_attached (text : string) (s : Exp) :
  attached s -> stream_write text s = written text s.
Proof.
  intros [Hd Ho]. unfold stream_write. rewrite Hd, Ho. reflexivity.
Qed.

Lemma stream_write_n_attached (n : nat) (s : Exp) :
  attached s -> stream_write_n n "," s = written (commasText n) s.
Proof.
  revert s. induction n as [|n IH]; intros s Ha; simpl.
  - symmetry. apply written_nil.
  - rewrite stream_write_attached by assumption.
    rewrite IH by (apply attached_written; assumption).
    apply written_written.
Qed.

Lemma writeFields_attached (count : Z) (rest : list string) :
  forall (j : Z) (s : Exp),
    attached s ->
    writeFields count j rest s
    = written (fieldsText (m_fieldCount s) count j rest) s.
Proof.
  induction rest as [|field rest IH]; intros j s Ha; simpl.
  - symmetry. apply written_nil.
  - rewrite (stream_write_attached field) by assumption.
    assert (Ha1 : attached (written field s))
      by (apply attached_written; assumption).
    change (m_fieldCount (written field s)) with (m_fieldCount s).
    destruct (j <? count - 1).
    + rewrite stream_write_attached by assumption.
      rewrite IH by (apply attached_written; assumption).
      rewrite !written_written. reflexivity.
    + destruct (0 <? m_fieldCount s - count).
      * rewrite stream_write_n_attached by assumption.
        rewrite stream_write_attached
          by (apply attached_written; assumption).
        rewrite IH by (do 2 apply attached_written; assumption).
        rewrite !written_written, !append_assoc. reflexivity.
      * rewrite stream_write_attached by assumption.
        rewrite IH by (apply attached_written; assumption).
        rewrite !written_written. reflexivity.
Qed.

Section WithQt.

Variable toString : QDateTime -> string -> string.
Variable filePath : string -> string -> string.

Lemma writeFrame_attached (w : World) (frame : RawFrame) (s : Exp) :
  attached s ->
  writeFrame toString filePath w frame s
  = written (rowText toString w (m_fieldCount s) frame) s.
Proof.
  intros Ha. pose proof Ha as [Hd Ho]. unfold writeFrame, rowText, isOpen.
  rewrite Ho. simpl negb. cbv iota beta. simpl andb. cbv iota.
  rewrite (stream_write_attached _ s) by assumption.
  rewrite stream_write_attached by (apply attached_written; assumption).
  rewrite writeFields_attached
    by (repeat apply attached_written; assumption).
  rewrite !written_written, ?append_assoc. reflexivity.
Qed.


(** *** The frame buffer during [writeValues] *)

Lemma stream_write_frames (text : string) (s : Exp) :
  m_frames (stream_write text s) = m_frames s.
Proof.
  unfold stream_write. destruct (streamDevice s && csvOpen s); reflexivity.
Qed.

Lemma stream_write_n_frames (n : nat) (text : string) :
  forall s, m_frames (stream_write_n n text s) = m_frames s.
Proof.
  induction n as [|n IH]; intros s; simpl; [reflexivity |].
  rewrite IH. apply stream_write_frames.
Qed.

Lemma writeFields_frames (count : Z) (rest : list string) :
  forall j s, m_frames (writeFields count j rest s) = m_frames s.
Proof.
  induction rest as [|field rest IH]; intros j s; simpl; [reflexivity |].
  rewrite IH.
  repeat match goal with
         | |- context [if ?b then _ else _] => destruct b
         end;
    rewrite ?stream_write_frames, ?stream_write_n_frames,
      ?stream_write_frames; reflexivity.
Qed.

Lemma writeTitles_frames (titles : list string) :
  forall i s, m_frames (writeTitles i titles s) = m_frames s.
Proof.
  induction titles as [|t titles IH]; intros i s; simpl; [reflexivity |].
  rewrite IH.
  match goal with
  | |- context [if ?b then _ else _] => destruct b
  end; rewrite !stream_write_frames; reflexivity.
Qed.

Lemma createCsvFile_frames (w : World) (frame : RawFrame) (s : Exp) :
  m_frames (createCsvFile toString filePath w frame s) = m_frames s.
Proof.
  unfold createCsvFile.
  destruct (openSucceeds w); simpl negb; cbv iota.
  - destruct (collectFields _ _ _) as [fields titles].
    unfold Q_EMIT, perform; simpl.
    rewrite writeTitles_frames, stream_write_frames. simpl.
    destruct (dirExists w _); reflexivity.
  - simpl. destruct (dirExists w _); reflexivity.
Qed.

Lemma writeFrame_frames (w : World) (frame : RawFrame) (s : Exp) :
  m_frames (writeFrame toString filePath w frame s) = m_frames s.
Proof.
  unfold writeFrame.
  rewrite writeFields_frames, !stream_write_frames.
  destruct (negb (isOpen s) && exportEnabled s);
    [apply createCsvFile_frames | reflexivity].
Qed.

Lemma skipn_nth_error {A : Type} (l : list A) :
  forall (i : nat) (x : A),
    nth_error l i = Some x -> skipn i l = x :: skipn (S i) l.
Proof.
  induction l as [|y l IH]; intros [|i] x H; simpl in *; try discriminate.
  - injection H as ->. reflexivity.
  - apply IH. exact H.
Qed.

(** The loop over the frames ends with the index at the end of the
    buffer: it has run its body on every buffered frame, in order. *)
Lemma writeValues_loop_complete (w : World) (fuel : nat) :
  forall (i : nat) (s : Exp),
    (List.length (m_frames s) <= fuel + i)%nat ->
    writeValues_loop toString filePath w fuel i s
    = fold_left (fun acc frame => writeFrame toString filePath w frame acc)
                (skipn i (m_frames s)) s.
Proof.
  induction fuel as [|fuel IH]; intros i s Hlen; simpl.
  - rewrite skipn_all2 by lia. reflexivity.
  - destruct (nth_error (m_frames s) i) as [frame|] eqn:Hi.
    + rewrite (skipn_nth_error _ _ _ Hi). simpl.
      rewrite IH by (rewrite writeFrame_frames; lia).
      rewrite writeFrame_frames. reflexivity.
    + apply nth_error_None in Hi. rewrite skipn_all2 by lia. reflexivity.
Qed.

Lemma writeValues_fold (w : World) (s : Exp) :
  writeValues toString filePath w s
  = set_frames []
      (fold_left (fun acc frame => writeFrame toString filePath w frame acc)
                 (m_frames s) s).
Proof.
  unfold writeValues. rewrite writeValues_loop_complete by lia.
  reflexivity.
Qed.

Lemma fold_writeFrame_attached (w : World) (frames : list RawFrame) :
  forall s : Exp,
    attached s ->
    fold_left (fun acc frame => writeFrame toString filePath w frame acc)
              frames s
    = written (rowsText toString w (m_fieldCount s) frames) s.
Proof.
  induction frames as [|frame frames IH]; intros s Ha; simpl.
  - symmetry. apply written_nil.
  - rewrite writeFrame_attached by assumption.
    rewrite IH by (apply attached_written; assumption).
    rewrite written_written. reflexivity.
Qed.

Lemma writeValues_attached (w : World) (s : Exp) :
  attached s ->
  writeValues toString filePath w s
  = set_frames []
      (written (rowsText toString w (m_fieldCount s) (m_frames s)) s).
Proof.
  intros Ha. rewrite writeValues_fold, fold_writeFrame_attached by exact Ha.
  reflexivity.
Qed.

(** The loop of [closeFile] ends with an empty buffer after one call of
    [writeValues]. *)
Lemma drainFrames_done (w : World) (s : Exp) :
  m_frames (drainFrames toString filePath w 1 s) = [].
Proof.
  simpl. destruct (m_frames s) eqn:Hs; [exact Hs | reflexivity].
Qed.

Lemma closeFile_not_open (w : World) (s : Exp) :
  isOpen s = false -> closeFile toString filePath w s = s.
Proof.
  intros H. unfold closeFile. rewrite H. reflexivity.
Qed.

(** The call of [closeFile] in the failure branch of [createCsvFile]
    finds the file closed. *)
Lemma createCsvFile_failure_closed (w : World) (frame : RawFrame) (s : Exp) :
  openSucceeds w = false ->
  isOpen s = false ->
  isOpen (createCsvFile toString filePath w frame s) = false.
Proof.
  intros Hw Hs. unfold createCsvFile. rewrite Hw. simpl.
  destruct (dirExists w _); exact Hs.
Qed.

(** *** Rows *)

Lemma fieldsText_suffix (fieldCount count : Z) (rest : list string) :
  forall j : Z,
    rest <> [] ->
    j + Z.of_nat (List.length rest) = count ->
    fieldsText fieldCount count j rest
    = String.concat "," rest
      ++ (if 0 <? fieldCount - count
          then commasText (Z.to_nat (fieldCount - count - 1))
          else "")
      ++ newline.
Proof.
  induction rest as [|field rest IH]; intros j Hne Hj; [congruence |].
  destruct rest as [|g rest'].
  - simpl in *. replace (j <? count - 1) with false
      by (symmetry; apply Z.ltb_ge; lia).
    rewrite append_nil_r. reflexivity.
  - change (String.concat "," (field :: g :: rest'))
      with (field ++ "," ++ String.concat "," (g :: rest')).
    change (fieldsText fieldCount count j (field :: g :: rest'))
      with (field
            ++ (if j <? count - 1
                then ","
                else (if 0 <? fieldCount - count
                      then commasText (Z.to_nat (fieldCount - count - 1))
                      else "") ++ newline)
            ++ fieldsText fieldCount count (j + 1) (g :: rest')).
    replace (j <? count - 1) with true
      by (symmetry; apply Z.ltb_lt; simpl List.length in Hj; lia).
    rewrite IH by (try discriminate; simpl List.length in *; lia).
    rewrite !append_assoc. reflexivity.
Qed.

Lemma fieldsText_dataColumns (fieldCount : Z) (fields : list string) :
  fields <> [] ->
  fieldsText fieldCount (Z.of_nat (List.length fields)) 0 fields
  = dataColumns fieldCount fields ++ newline.
Proof.
  intros Hne. rewrite fieldsText_suffix by (assumption || lia).
  unfold dataColumns. cbv zeta. rewrite append_assoc. reflexivity.
Qed.

Lemma columns_dataColumns (fieldCount : Z) (fields : list string) :
  fields <> [] ->
  Forall commaFree fields ->
  Z.of_nat (List.length fields) < fieldCount ->
  columns (dataColumns fieldCount fields) = fieldCount - 1.
Proof.
  intros Hne Hfree Hshort. unfold columns, dataColumns. cbv zeta.
  replace (0 <? fieldCount - Z.of_nat (List.length fields)) with true
    by (symmetry; apply Z.ltb_lt; lia).
  rewrite commaCount_app, commaCount_concat, commaCount_commasText
    by assumption.
  destruct fields as [|f fields]; [congruence |].
  simpl List.length in *. lia.
Qed.

Lemma rowsText_app (w : World) (fieldCount : Z)
      (pre post : list RawFrame) :
  rowsText toString w fieldCount (pre ++ post)
  = rowsText toString w fieldCount pre
    ++ rowsText toString w fieldCount post.
Proof.
  induction pre as [|frame pre IH]; simpl; [reflexivity |].
  rewrite IH, append_assoc. reflexivity.
Qed.

(** *** The stream and the file along a run *)

Lemma sameButContents_refl (s : Exp) : sameButContents s s.
Proof.
  unfold sameButContents. destruct s; reflexivity.
Qed.

Lemma sameButContents_trans (s1 s2 s3 : Exp) :
  sameButContents s1 s2 -> sameButContents s2 s3 -> sameButContents s1 s3.
Proof.
  unfold sameButContents. intros H12 H23. rewrite H23 at 1.
  rewrite H12. reflexivity.
Qed.

Lemma stream_write_same (text : string) (s : Exp) :
  sameButContents s (stream_write text s).
Proof.
  unfold stream_write. destruct (streamDevice s && csvOpen s).
  - reflexivity.
  - apply sameButContents_refl.
Qed.

Lemma stream_write_n_same (n : nat) (text : string) :
  forall s, sameButContents s (stream_write_n n text s).
Proof.
  induction n as [|n IH]; intros s; simpl.
  - apply sameButContents_refl.
  - eapply sameButContents_trans; [apply stream_write_same | apply IH].
Qed.

Lemma writeFields_same (count : Z) (rest : list string) :
  forall j s, sameButContents s (writeFields count j rest s).
Proof.
  induction rest as [|field rest IH]; intros j s; simpl.
  - apply sameButContents_refl.
  - eapply sameButContents_trans; [| apply IH].
    eapply sameButContents_trans; [apply (stream_write_same field) |].
    repeat match goal with
           | |- context [if ?b then _ else _] => destruct b
           end;
      repeat first [ apply stream_write_same
                   | eapply sameButContents_trans;
                     [apply stream_write_n_same |] ].
Qed.

Lemma writeTitles_same (titles : list string) :
  forall i s, sameButContents s (writeTitles i titles s).
Proof.
  induction titles as [|t titles IH]; intros i s; simpl.
  - apply sameButContents_refl.
  - eapply sameButContents_trans; [| apply IH].
    match goal with
    | |- context [if ?b then _ else _] => destruct b
    end;
      repeat (eapply sameButContents_trans; [| apply stream_write_same]);
      apply sameButContents_refl.
Qed.

Lemma consistent_same (s s' : Exp) :
  sameButContents s s' -> consistent s -> consistent s'.
Proof.
  unfold sameButContents, consistent. intros -> H. exact H.
Qed.

Lemma createCsvFile_consistent (w : World) (frame : RawFrame) (s : Exp) :
  consistent s -> consistent (createCsvFile toString filePath w frame s).
Proof.
  intros Hs. unfold createCsvFile.
  destruct (openSucceeds w); simpl negb; cbv iota.
  - destruct (collectFields _ _ _) as [fields titles].
    unfold Q_EMIT, perform, consistent. simpl.
    match goal with
    | |- streamDevice ?t = csvOpen ?t =>
        change (consistent t)
    end.
    eapply consistent_same; [apply writeTitles_same |].
    eapply consistent_same; [apply stream_write_same |].
    reflexivity.
  - unfold consistent in *. simpl. destruct (dirExists w _); exact Hs.
Qed.

Lemma writeFrame_consistent (w : World) (frame : RawFrame) (s : Exp) :
  consistent s -> consistent (writeFrame toString filePath w frame s).
Proof.
  intros Hs. unfold writeFrame.
  eapply consistent_same; [apply writeFields_same |].
  eapply consistent_same; [apply stream_write_same |].
  eapply consistent_same; [apply stream_write_same |].
  destruct (negb (isOpen s) && exportEnabled s);
    [apply createCsvFile_consistent |]; exact Hs.
Qed.

Lemma writeValues_consistent (w : World) (s : Exp) :
  consistent s -> consistent (writeValues toString filePath w s).
Proof.
  rewrite writeValues_fold. generalize (m_frames s). intros frames.
  revert s. induction frames as [|frame frames IH]; intros s Hs; simpl.
  - exact Hs.
  - apply (IH (writeFrame toString filePath w frame s)).
    apply writeFrame_consistent. exact Hs.
Qed.

Lemma closeFile_consistent (w : World) (s : Exp) :
  consistent s -> consistent (closeFile toString filePath w s).
Proof.
  intros Hs. unfold closeFile. destruct (isOpen s); [reflexivity | exact Hs].
Qed.

Lemma step_consistent (o : Op) (s : Exp) :
  consistent s -> consistent (step toString filePath o s).
Proof.
  intros Hs. destruct o; simpl.
  - unfold registerFrame.
    destruct (negb (connected w)), (negb (currentFrameValid w)),
      (negb (exportEnabled s)); exact Hs.
  - apply writeValues_consistent. exact Hs.
  - apply closeFile_consistent. exact Hs.
  - unfold setExportEnabled.
    match goal with
    | |- context [if ?b then _ else _] => destruct b
    end; [apply closeFile_consistent |]; exact Hs.
  - unfold openCurrentCsv. destruct (isOpen s); exact Hs.
Qed.

(** In every state the object reaches, an open file has the stream
    attached. *)
Lemma run_consistent (ops : list Op) :
  forall s, consistent s -> consistent (run toString filePath ops s).
Proof.
  induction ops as [|o ops IH]; intros s Hs; simpl; [exact Hs |].
  apply IH. apply step_consistent. exact Hs.
Qed.

Lemma reachable_open_attached (ops : list Op) :
  let s := run toString filePath ops Export_ctor in
  isOpen s = true -> attached s.
Proof.
  intros s Hopen.
  assert (Hc : consistent s) by (apply run_consistent; reflexivity).
  unfold consistent in Hc. unfold isOpen in Hopen.
  split; [rewrite Hc |]; exact Hopen.
Qed.

(** *** The claims on the export *)

(** C1: for a buffered frame that splits into fewer fields than the
    field count, the row that [writeValues] appends to the open file,
    after the rows of the frames before it and before the rows of the
    frames after it, is the time stamp, a comma, the fields joined by
    commas, the padding commas and the line end; when no field holds a
    comma, that row has one data column less than the field count, not
    the field count: the padding loop writes one comma too few. *)
Theorem writeValues_short_row (w : World) (s : Exp)
        (pre post : list RawFrame) (frame : RawFrame) :
  let fields := split (separatorSequence w) (fromUtf8 (data frame)) in
  let row := dataColumns (m_fieldCount s) fields in
  attached s ->
  m_frames s = (pre ++ frame :: post)%list ->
  Forall commaFree fields ->
  Z.of_nat (List.length fields) < m_fieldCount s ->
  csvContents (writeValues toString filePath w s)
  = csvContents s
    ++ rowsText toString w (m_fieldCount s) pre
    ++ (toString (rxDateTime frame) "yyyy/MM/dd/ HH:mm:ss::zzz" ++ ","
        ++ row ++ newline)
    ++ rowsText toString w (m_fieldCount s) post
  /\ columns row = m_fieldCount s - 1.
Proof.
  intros fields row Ha Hframes Hfree Hshort.
  assert (Hne : fields <> []) by apply split_nonempty.
  split.
  - rewrite writeValues_attached by exact Ha.
    rewrite Hframes, rowsText_app. simpl. unfold rowText. fold fields.
    rewrite fieldsText_dataColumns by exact Hne.
    reflexivity.
  - apply columns_dataColumns; assumption.
Qed.

(** C6: with the file open, [setExportEnabled(false)] empties the frame
    buffer and closes the file, and the file holds what it held before
    the call: none of the buffered frames is written. *)
Theorem setExportEnabled_false_open (w : World) (s : Exp) :
  isOpen s = true ->
  let s' := setExportEnabled toString filePath w false s in
  m_frames s' = []
  /\ isOpen s' = false
  /\ csvContents s' = csvContents s
  /\ exportEnabled s' = false
  /\ streamDevice s' = false
  /\ m_fieldCount s' = 0.
Proof.
  intros Hopen s'. subst s'. unfold setExportEnabled.
  unfold isOpen in Hopen. simpl. rewrite Hopen. simpl.
  unfold closeFile. simpl. rewrite Hopen. simpl.
  repeat split.
Qed.

End WithQt.

(** A frame of two fields in a file of three: the row has two data
    columns. *)
Example writeValues_two_of_three :
  csvContents
    (writeValues Samples.toString Samples.filePath Samples.world
       (registerFrame Samples.world "1,2" Samples.opened))
  = "2022/03/14/ 15:09:26::535,1,2" ++ newline.
Proof.
  vm_compute. reflexivity.
Qed.

Lemma writeValues_short_row_witness :
  attached (registerFrame Samples.world "1,2" Samples.opened)
  /\ Forall commaFree (split "," "1,2")
  /\ Z.of_nat (List.length (split "," "1,2")) < 3
  /\ columns (dataColumns 3 (split "," "1,2")) = 2.
Proof.
  assert (Ha : attached (registerFrame Samples.world "1,2" Samples.opened))
    by (split; reflexivity).
  assert (Hfree : Forall commaFree (split "," "1,2"))
    by apply split_comma_free.
  assert (Hshort : Z.of_nat (List.length (split "," "1,2")) < 3)
    by (simpl; lia).
  split; [exact Ha |]. split; [exact Hfree |]. split; [exact Hshort |].
  exact (proj2 (writeValues_short_row Samples.toString Samples.filePath
                  Samples.world
                  (registerFrame Samples.world "1,2" Samples.opened)
                  [] []
                  (mkRawFrame "1,2" (currentDateTime Samples.world))
                  Ha eq_refl Hfree Hshort)).
Defined.

(** C2 fails as stated: a buffer delivered while the device is not
    connected is not appended to the frame buffer; and a buffered frame
    is discarded without having been written when the export is
    disabled with the file open. *)
Lemma registerFrame_disconnected :
  m_frames (registerFrame Samples.world_disconnected "1,2,3" Samples.opened)
  <> (m_frames Samples.opened
      ++ [mkRawFrame "1,2,3" (currentDateTime Samples.world_disconnected)])%list
  /\ (let s := registerFrame Samples.world "1,2,3" Samples.opened in
      let s' := setExportEnabled Samples.toString Samples.filePath
                  Samples.world false s in
      m_frames s <> [] /\ m_frames s' = []
      /\ csvContents s' = csvContents s).
Proof.
  split; [simpl; discriminate |].
  split; [simpl; discriminate |]. split; reflexivity.
Qed.

Lemma setExportEnabled_false_open_witness :
  isOpen (registerFrame Samples.world "1,2,3" Samples.opened) = true
  /\ m_frames (registerFrame Samples.world "1,2,3" Samples.opened) <> []
  /\ m_frames
       (setExportEnabled Samples.toString Samples.filePath Samples.world
          false (registerFrame Samples.world "1,2,3" Samples.opened)) = [].
Proof.
  split; [reflexivity |]. split; [simpl; discriminate |].
  exact (proj1 (setExportEnabled_false_open Samples.toString
                  Samples.filePath Samples.world
                  (registerFrame Samples.world "1,2,3" Samples.opened)
                  eq_refl)).
Defined.

End CsvExportSpec.

(* ================================================================= *)
(** ** Further properties of the CSV export *)

Module CsvExportProps.

Import CsvExport CsvExportSpec.
Local Open Scope string_scope.
Local Open Scope Z_scope.

(** *** The fields of the schema *)

Lemma existsb_eqb_In (x : Z) (l : list Z) :
  existsb (Z.eqb x) l = true <-> In x l.
Proof.
  rewrite existsb_exists. split.
  - intros [y [Hy Hxy]]. apply Z.eqb_eq in Hxy. subst y. exact Hy.
  - intros Hx. exists x. split; [exact Hx | apply Z.eqb_refl].
Qed.

Lemma collectFields_length (datasets : list Dataset) :
  forall fields titles,
    List.length titles = List.length fields ->
    List.length (snd (collectFields datasets fields titles))
    = List.length (fst (collectFields datasets fields titles)).
Proof.
  induction datasets as [|d rest IH]; intros fields titles Hlen; simpl.
  - exact Hlen.
  - destruct (existsb (Z.eqb (index d)) fields); apply IH;
      [exact Hlen |]. rewrite !length_app, Hlen. reflexivity.
Qed.

Lemma collectFields_NoDup (datasets : list Dataset) :
  forall fields titles,
    NoDup fields -> NoDup (fst (collectFields datasets fields titles)).
Proof.
  induction datasets as [|d rest IH]; intros fields titles Hnd; simpl.
  - exact Hnd.
  - destruct (existsb (Z.eqb (index d)) fields) eqn:Hin; apply IH;
      [exact Hnd |].
    apply NoDup_app; [exact Hnd | repeat constructor; intros [] |].
    intros x Hx [Hd | []]. subst x.
    apply existsb_eqb_In in Hx. congruence.
Qed.

Lemma collectFields_In (datasets : list Dataset) :
  forall fields titles (i : Z),
    In i (fst (collectFields datasets fields titles))
    <-> In i fields \/ In i (map index datasets).
Proof.
  induction datasets as [|d rest IH]; intros fields titles i; simpl.
  - tauto.
  - destruct (existsb (Z.eqb (index d)) fields) eqn:Hin; rewrite IH.
    + apply existsb_eqb_In in Hin. split; [tauto |].
      intros [H | [H | H]]; [tauto | subst i; tauto | tauto].
    + rewrite in_app_iff. simpl. tauto.
Qed.

Lemma combine_snoc {A B : Type} (l : list A) (l' : list B) (a : A) (b : B) :
  List.length l = List.length l' ->
  combine (l ++ [a]) (l' ++ [b]) = (combine l l' ++ [(a, b)])%list.
Proof.
  revert l'. induction l as [|x l IH]; intros [|y l'] Hlen;
    simpl in *; try discriminate; [reflexivity |].
  rewrite IH by lia. reflexivity.
Qed.

Lemma collectFields_keeps (datasets : list Dataset) :
  forall fields titles (p : Z * string),
    List.length fields = List.length titles ->
    In p (combine fields titles) ->
    In p (combine (fst (collectFields datasets fields titles))
                  (snd (collectFields datasets fields titles))).
Proof.
  induction datasets as [|d rest IH]; intros fields titles p Hlen Hp; simpl.
  - exact Hp.
  - destruct (existsb (Z.eqb (index d)) fields); apply IH; try exact Hlen;
      try exact Hp.
    + rewrite !length_app, Hlen. reflexivity.
    + rewrite combine_snoc by exact Hlen. apply in_or_app. left. exact Hp.
Qed.

Lemma collectFields_first (datasets : list Dataset) :
  forall fields titles (i : Z) (d : Dataset),
    List.length fields = List.length titles ->
    ~ In i fields ->
    find (fun d => Z.eqb (index d) i) datasets = Some d ->
    In (i, title d)
       (combine (fst (collectFields datasets fields titles))
                (snd (collectFields datasets fields titles))).
Proof.
  induction datasets as [|d0 rest IH]; intros fields titles i d Hlen Hni Hfind;
    simpl in *; [discriminate |].
  destruct (existsb (Z.eqb (index d0)) fields) eqn:Hin.
  - apply existsb_eqb_In in Hin.
    destruct (Z.eqb (index d0) i) eqn:Hi.
    + apply Z.eqb_eq in Hi. congruence.
    + apply IH; assumption.
  - destruct (Z.eqb (index d0) i) eqn:Hi.
    + apply Z.eqb_eq in Hi. injection Hfind as <-. subst i.
      apply collectFields_keeps; [rewrite !length_app, Hlen; reflexivity |].
      rewrite combine_snoc by exact Hlen. apply in_or_app. right. left.
      reflexivity.
    + apply IH; [rewrite !length_app, Hlen; reflexivity | | exact Hfind].
      rewrite in_app_iff. simpl. apply Z.eqb_neq in Hi.
      intros [H | [H | []]]; [tauto | congruence].
Qed.

(** X1: the field count of a schema is the number of distinct dataset
    indexes: no index is listed twice, every index of a dataset is
    listed, nothing else is, there is one title per field, and the
    title of a field is the title of the first dataset with its index. *)
Theorem schemaFields_distinct (w : World) :
  let datasets := List.concat (groups w) in
  let fields := fst (schemaFields w) in
  let titles := snd (schemaFields w) in
  NoDup fields
  /\ List.length titles = List.length fields
  /\ (forall i, In i fields <-> exists d, In d datasets /\ index d = i)
  /\ (forall i d,
        find (fun d => Z.eqb (index d) i) datasets = Some d ->
        In (i, title d) (combine fields titles))
  /\ (List.length fields <= List.length datasets)%nat.
Proof.
  intros datasets fields titles. subst fields titles. unfold schemaFields.
  fold datasets. split; [| split; [| split; [| split]]].
  - apply collectFields_NoDup. constructor.
  - apply collectFields_length. reflexivity.
  - intros i. rewrite collectFields_In, in_map_iff. simpl.
    split.
    + intros [[] | [d [Hd Hin]]]. exists d. tauto.
    + intros [d [Hin Hd]]. right. exists d. tauto.
  - intros i d Hfind. apply collectFields_first;
      [reflexivity | intros [] | exact Hfind].
  - rewrite <- (length_map index datasets).
    apply NoDup_incl_length; [apply collectFields_NoDup; constructor |].
    intros i Hi. apply collectFields_In in Hi as [[] | Hi]. exact Hi.
Qed.

(** *** The header row *)

Lemma commaCount_uint (d : Decimal.uint) :
  commaCount (NilEmpty.string_of_uint d) = O.
Proof.
  induction d; simpl; auto.
Qed.

Lemma commaCount_number (n : Z) : commaCount (QString_number n) = O.
Proof.
  unfold QString_number, NilEmpty.string_of_int.
  destruct (Z.to_int n); simpl; apply commaCount_uint.
Qed.

Lemma titleCell_commaFree (i : Z) (t : string) :
  commaFree t -> commaFree (titleCell i t).
Proof.
  unfold commaFree, titleCell. intros Ht.
  rewrite !commaCount_app, Ht, commaCount_number. reflexivity.
Qed.

Lemma titleCells_commaFree (titles : list string) :
  forall i, Forall commaFree titles -> Forall commaFree (titleCells i titles).
Proof.
  induction titles as [|t titles IH]; intros i Hall; simpl; constructor;
    inversion Hall; subst.
  - apply titleCell_commaFree. assumption.
  - apply IH. assumption.
Qed.

Lemma titleCells_length (titles : list string) :
  forall i, List.length (titleCells i titles) = List.length titles.
Proof.
  induction titles as [|t titles IH]; intros i; simpl;
    [reflexivity | rewrite IH; reflexivity].
Qed.

Lemma titlesText_cells (fieldCount : Z) (titles : list string) :
  forall i : Z,
    titles <> [] ->
    i + Z.of_nat (List.length titles) = fieldCount ->
    titlesText fieldCount i titles
    = String.concat "," (titleCells i titles) ++ newline.
Proof.
  induction titles as [|t titles IH]; intros i Hne Hi; [congruence |].
  destruct titles as [|u titles'].
  - simpl in *. replace (i <? fieldCount - 1) with false
      by (symmetry; apply Z.ltb_ge; lia).
    unfold titleCell. rewrite append_nil_r, !append_assoc. reflexivity.
  - change (titlesText fieldCount i (t :: u :: titles'))
      with (t ++ "(field " ++ QString_number (i + 1) ++ ")"
            ++ (if i <? fieldCount - 1 then "," else newline)
            ++ titlesText fieldCount (i + 1) (u :: titles')).
    change (String.concat "," (titleCells i (t :: u :: titles')))
      with (titleCell i t ++ ","
            ++ String.concat "," (titleCells (i + 1) (u :: titles'))).
    replace (i <? fieldCount - 1) with true
      by (symmetry; apply Z.ltb_lt; simpl List.length in Hi; lia).
    rewrite IH by (try discriminate; simpl List.length in *; lia).
    unfold titleCell. rewrite !append_assoc. reflexivity.
Qed.

Lemma writeTitles_attached (titles : list string) :
  forall (i : Z) (s : Exp),
    attached s ->
    writeTitles i titles s
    = written (titlesText (m_fieldCount s) i titles) s.
Proof.
  induction titles as [|t titles IH]; intros i s Ha; simpl.
  - symmetry. apply written_nil.
  - rewrite (stream_write_attached t) by assumption.
    rewrite (stream_write_attached "(field ")
      by (apply attached_written; assumption).
    rewrite (stream_write_attached (QString_number (i + 1)))
      by (do 2 apply attached_written; assumption).
    rewrite (stream_write_attached ")")
      by (do 3 apply attached_written; assumption).
    change (m_fieldCount (written ")" (written (QString_number (i + 1))
              (written "(field " (written t s)))))
      with (m_fieldCount s).
    destruct (i <? m_fieldCount s - 1);
      rewrite stream_write_attached
        by (do 4 apply attached_written; assumption);
      rewrite IH by (do 5 apply attached_written; assumption);
      rewrite !written_written, ?append_assoc; reflexivity.
Qed.

(** *** A stream without device *)

Lemma stream_write_detached (text : string) (s : Exp) :
  streamDevice s = false -> stream_write text s = s.
Proof.
  intros H. unfold stream_write. rewrite H. reflexivity.
Qed.

Lemma stream_write_n_detached (n : nat) (text : string) (s : Exp) :
  streamDevice s = false -> stream_write_n n text s = s.
Proof.
  intros H. induction n as [|n IH]; simpl; [reflexivity |].
  rewrite stream_write_detached by exact H. exact IH.
Qed.

Lemma writeFields_detached (count : Z) (rest : list string) :
  forall (j : Z) (s : Exp),
    streamDevice s = false -> writeFields count j rest s = s.
Proof.
  induction rest as [|field rest IH]; intros j s H; simpl; [reflexivity |].
  rewrite (stream_write_detached field) by exact H.
  destruct (j <? count - 1).
  - rewrite stream_write_detached by exact H. apply IH. exact H.
  - destruct (0 <? m_fieldCount s - count).
    + rewrite stream_write_n_detached by exact H.
      rewrite stream_write_detached by exact H. apply IH. exact H.
    + rewrite stream_write_detached by exact H. apply IH. exact H.
Qed.

(** Joining the pieces of a comma-separated text with commas gives the
    text back. *)
Lemma concat_cons (sep x : string) (l : list string) :
  l <> [] -> String.concat sep (x :: l) = x ++ sep ++ String.concat sep l.
Proof.
  destruct l; [congruence | reflexivity].
Qed.

Lemma concat_split_from_comma (s : string) :
  forall cur : string,
    String.concat "," (split_from "," 0 cur s) = cur ++ s.
Proof.
  induction s as [|c s IH]; intros cur.
  - simpl. symmetry. apply append_nil_r.
  - change (split_from "," 0 cur (String c s))
      with (if String.prefix "," (String c s)
            then cur :: split_from "," 0 "" s
            else split_from "," 0 (cur ++ String c "") s).
    rewrite prefix_comma. destruct (Ascii.eqb c ","%char) eqn:Hc.
    + apply Ascii.eqb_eq in Hc. subst c.
      rewrite concat_cons by apply split_from_nonempty.
      rewrite IH. reflexivity.
    + rewrite IH, append_assoc. reflexivity.
Qed.

Lemma concat_split_comma (s : string) :
  String.concat "," (split "," s) = s.
Proof.
  apply (concat_split_from_comma s "").
Qed.

Section WithQt.

Variable toString : QDateTime -> string -> string.
Variable filePath : string -> string -> string.

(** *** Creating the file *)

Lemma createCsvFile_success (w : World) (frame : RawFrame) (s : Exp) :
  openSucceeds w = true ->
  let c := createCsvFile toString filePath w frame s in
  let fc := Z.of_nat (List.length (fst (schemaFields w))) in
  attached c
  /\ m_frames c = m_frames s
  /\ m_exportEnabled c = m_exportEnabled s
  /\ m_fieldCount c = fc
  /\ csvContents c
     = byteOrderMark ++ "RX Date/Time,"
       ++ titlesText fc 0 (snd (schemaFields w))
  /\ csvFileName c = csvFilePath toString filePath w frame
  /\ count isOpenChanged (log c) = S (count isOpenChanged (log s)).
Proof.
  intros Hopen c fc. subst c fc.
  unfold createCsvFile, schemaFields, csvFilePath.
  rewrite Hopen. simpl negb. cbv iota zeta.
  destruct (collectFields (List.concat (groups w)) [] []) as [fields titles].
  cbv beta iota. simpl fst. simpl snd.
  match goal with
  | |- context [if dirExists w ?p then s else ?t] =>
      set (s1 := if dirExists w p then s else t);
      assert (H1 : m_frames s1 = m_frames s
                   /\ m_exportEnabled s1 = m_exportEnabled s
                   /\ count isOpenChanged (log s1)
                      = count isOpenChanged (log s))
        by (subst s1; destruct (dirExists w p);
            [repeat split |];
            unfold perform, count; cbn [m_frames m_exportEnabled log];
            rewrite filter_app, length_app;
            cbn [filter isOpenChanged List.length];
            repeat split; lia);
      clearbody s1
  end.
  destruct H1 as (Hfr & Hen & Hlog).
  match goal with
  | |- context [filePath ?p ?n] => generalize (filePath p n); intros name
  end.
  match goal with
  | |- context [stream_write "RX Date/Time," ?t] =>
      set (s4 := t);
      assert (Ha : attached s4) by (split; reflexivity)
  end.
  rewrite (stream_write_attached _ s4) by exact Ha.
  rewrite writeTitles_attached by (apply attached_written; exact Ha).
  rewrite written_written.
  change (m_fieldCount (written "RX Date/Time," s4))
    with (Z.of_nat (List.length fields)).
  split; [split; reflexivity |].
  split; [exact Hfr |]. split; [exact Hen |]. split; [reflexivity |].
  split; [| split; [reflexivity |]].
  - unfold Q_EMIT, perform, written, set_csvContents.
    cbn [csvContents]. subst s4. cbn [csvContents set_fieldCount
      set_csvContents]. first [reflexivity | apply append_assoc].
  - unfold Q_EMIT, perform. cbn [log]. unfold count in *.
    rewrite filter_app, length_app.
    change (log (written ("RX Date/Time,"
              ++ titlesText (Z.of_nat (List.length fields)) 0 titles) s4))
      with (log s1).
    cbn [filter isOpenChanged List.length]. lia.
Qed.

Lemma createCsvFile_failure (w : World) (frame : RawFrame) (s : Exp) :
  openSucceeds w = false ->
  let c := createCsvFile toString filePath w frame s in
  csvOpen c = csvOpen s
  /\ streamDevice c = streamDevice s
  /\ m_frames c = m_frames s
  /\ m_exportEnabled c = m_exportEnabled s
  /\ m_fieldCount c = m_fieldCount s
  /\ csvContents c = csvContents s
  /\ count isAlert (log c) = S (count isAlert (log s))
  /\ count isOpenChanged (log c) = count isOpenChanged (log s).
Proof.
  intros Hopen c. subst c. unfold createCsvFile. rewrite Hopen.
  simpl negb. cbv iota.
  match goal with
  | |- context [if dirExists w ?p then _ else _] =>
      destruct (dirExists w p)
  end;
    unfold perform, count, set_csvFileName;
    cbn [m_fieldCount m_exportEnabled m_frames csvFileName csvOpen
         csvContents streamDevice log];
    rewrite ?filter_app, ?length_app;
    cbn [filter isOpenChanged isAlert List.length];
    repeat split; lia.
Qed.

(** The first frame of a flush creates the file and is written to it. *)
Lemma writeFrame_creates (w : World) (frame : RawFrame) (s : Exp) :
  isOpen s = false ->
  exportEnabled s = true ->
  openSucceeds w = true ->
  let c := createCsvFile toString filePath w frame s in
  writeFrame toString filePath w frame s
  = written (rowText toString w (m_fieldCount c) frame) c.
Proof.
  intros Hclosed Hen Hopen c.
  destruct (createCsvFile_success w frame s Hopen) as [Ha _]. fold c in Ha.
  unfold writeFrame, rowText. rewrite Hclosed, Hen. simpl negb.
  simpl andb. cbv iota. fold c.
  rewrite (stream_write_attached _ c) by assumption.
  rewrite stream_write_attached by (apply attached_written; assumption).
  rewrite writeFields_attached
    by (repeat apply attached_written; assumption).
  rewrite !written_written, ?append_assoc. reflexivity.
Qed.

Lemma writeValues_first_flush (w : World) (s : Exp)
      (frame : RawFrame) (rest : list RawFrame) :
  isOpen s = false ->
  exportEnabled s = true ->
  openSucceeds w = true ->
  m_frames s = frame :: rest ->
  let c := createCsvFile toString filePath w frame s in
  writeValues toString filePath w s
  = set_frames []
      (written (rowsText toString w (m_fieldCount c) (frame :: rest)) c).
Proof.
  intros Hclosed Hen Hopen Hframes c.
  rewrite writeValues_fold, Hframes. simpl fold_left.
  rewrite writeFrame_creates by assumption. fold c.
  destruct (createCsvFile_success w frame s Hopen) as (Ha & _).
  fold c in Ha.
  rewrite fold_writeFrame_attached by (apply attached_written; exact Ha).
  rewrite written_written. reflexivity.
Qed.

(** C2, as amended: [registerFrame] appends the buffer it is given, with
    the time of receipt, at the end of the frame buffer when the device
    is connected, the dashboard has a valid frame and the export is
    enabled, and otherwise leaves the object as it was.  [writeValues]
    leaves the frame buffer empty.  With the stream attached to the open
    file it has then appended one row for each buffered frame, in the
    order of arrival, and changed nothing else.  With no file open, the
    export enabled, a file that can be opened and a buffer that is not
    empty, it has then created the file and left in it the byte order
    mark, the header and one row for each buffered frame, in the order
    of arrival. *)
Theorem registerFrame_writeValues (w : World) (bytes : string) (s : Exp) :
  registerFrame w bytes s
  = (if connected w && currentFrameValid w && exportEnabled s
     then set_frames (m_frames s ++ [mkRawFrame bytes (currentDateTime w)]) s
     else s)
  /\ m_frames (writeValues toString filePath w s) = []
  /\ (attached s ->
      writeValues toString filePath w s
      = set_frames []
          (set_csvContents
             (csvContents s
              ++ rowsText toString w (m_fieldCount s) (m_frames s)) s))
  /\ (isOpen s = false ->
      exportEnabled s = true ->
      openSucceeds w = true ->
      m_frames s <> [] ->
      let s' := writeValues toString filePath w s in
      let fc := Z.of_nat (List.length (fst (schemaFields w))) in
      isOpen s' = true
      /\ streamDevice s' = true
      /\ m_fieldCount s' = fc
      /\ csvContents s'
         = byteOrderMark ++ "RX Date/Time,"
           ++ titlesText fc 0 (snd (schemaFields w))
           ++ rowsText toString w fc (m_frames s)).
Proof.
  split; [| split; [| split]].
  - unfold registerFrame.
    destruct (connected w), (currentFrameValid w), (exportEnabled s);
      reflexivity.
  - reflexivity.
  - intros Ha. apply writeValues_attached. exact Ha.
  - intros Hclosed Hen Hopen Hne s' fc. subst s'.
    destruct (m_frames s) as [|frame rest] eqn:Hframes; [congruence |].
    rewrite (writeValues_first_flush w s frame rest) by assumption.
    destruct (createCsvFile_success w frame s Hopen)
      as ([Hd Ho] & _ & _ & Hfc & Hct & _).
    fold fc in Hfc, Hct.
    set (c := createCsvFile toString filePath w frame s) in *.
    unfold isOpen, written, set_frames, set_csvContents.
    cbn [m_fieldCount csvOpen streamDevice csvContents].
    rewrite Hfc, Hct, !append_assoc.
    repeat split; assumption.
Qed.

(** X3: with the export enabled and no file open, a flush of a non-empty
    buffer whose file can be opened creates the file, named after the
    time of receipt of the first buffered frame, takes the field count
    from the schema, and leaves in the file the byte order mark, the
    header and one row per buffered frame in order; the buffer is empty
    afterwards and [openChanged] was emitted once. *)
Theorem writeValues_creates_file (w : World) (s : Exp)
        (frame : RawFrame) (rest : list RawFrame) :
  isOpen s = false ->
  exportEnabled s = true ->
  openSucceeds w = true ->
  m_frames s = frame :: rest ->
  let s' := writeValues toString filePath w s in
  let fc := Z.of_nat (List.length (fst (schemaFields w))) in
  isOpen s' = true
  /\ m_frames s' = []
  /\ m_fieldCount s' = fc
  /\ csvFileName s' = csvFilePath toString filePath w frame
  /\ csvContents s'
     = byteOrderMark ++ "RX Date/Time,"
       ++ titlesText fc 0 (snd (schemaFields w))
       ++ rowsText toString w fc (frame :: rest)
  /\ count isOpenChanged (log s') = S (count isOpenChanged (log s)).
Proof.
  intros Hclosed Hen Hopen Hframes s' fc. subst s'.
  rewrite writeValues_fold, Hframes. simpl fold_left.
  rewrite writeFrame_creates by assumption.
  destruct (createCsvFile_success w frame s Hopen)
    as (Ha & _ & _ & Hfc & Hct & Hname & Hlog).
  fold fc in Hfc, Hct.
  set (c := createCsvFile toString filePath w frame s) in *.
  rewrite fold_writeFrame_attached by (apply attached_written; exact Ha).
  rewrite written_written.
  change (m_fieldCount (written (rowText toString w (m_fieldCount c) frame) c))
    with (m_fieldCount c).
  destruct Ha as [_ Ho].
  unfold isOpen, written, set_frames, set_csvContents.
  cbn [m_fieldCount m_frames csvFileName csvOpen csvContents log].
  rewrite Hfc, Hct, !append_assoc.
  repeat split; assumption.
Qed.

(** X2: when the schema has at least one field and no title holds a comma,
    the header of a created file is the byte order mark, the time stamp
    title and one cell [title(field n)] per field, with as many data
    columns as the field count, and a line end. *)
Theorem createCsvFile_header (w : World) (frame : RawFrame) (s : Exp) :
  let titles := snd (schemaFields w) in
  let line := String.concat "," (titleCells 0 titles) in
  openSucceeds w = true ->
  List.concat (groups w) <> [] ->
  Forall commaFree titles ->
  csvContents (createCsvFile toString filePath w frame s)
  = byteOrderMark ++ "RX Date/Time," ++ line ++ newline
  /\ columns line = m_fieldCount (createCsvFile toString filePath w frame s)
  /\ 1 <= m_fieldCount (createCsvFile toString filePath w frame s).
Proof.
  intros titles line Hopen Hschema Hfree.
  destruct (createCsvFile_success w frame s Hopen)
    as (_ & _ & _ & Hfc & Hct & _).
  assert (Hlen : List.length titles = List.length (fst (schemaFields w)))
    by (apply collectFields_length; reflexivity).
  assert (Hin : forall i, In i (fst (schemaFields w))
                  <-> exists d, In d (List.concat (groups w)) /\ index d = i).
  { intros i. unfold schemaFields. rewrite collectFields_In, in_map_iff.
    simpl. split.
    - intros [[] | [d [Hd Hi]]]. exists d. tauto.
    - intros [d [Hi Hd]]. right. exists d. tauto. }
  fold titles in Hct.
  assert (Hne : titles <> []).
  { destruct (List.concat (groups w)) as [|d ds] eqn:Hds; [congruence |].
    assert (Hd : In (index d) (fst (schemaFields w)))
      by (apply Hin; exists d; split; [left |]; reflexivity).
    intros Hnil. rewrite Hnil in Hlen. simpl in Hlen.
    destruct (fst (schemaFields w)); [exact Hd | discriminate]. }
  rewrite Hct, Hfc, <- Hlen.
  rewrite titlesText_cells by (assumption || lia).
  fold line. split; [reflexivity |].
  unfold columns, line.
  rewrite commaCount_concat, titleCells_length.
  - destruct titles; [congruence |]. simpl List.length. lia.
  - apply titleCells_commaFree. exact Hfree.
  - destruct titles; [congruence | discriminate].
Qed.

(** X4: with a schema without datasets the header has no line end: the
    field count is 0 and the first row continues the header line. *)
Theorem writeValues_empty_schema (w : World) (s : Exp)
        (frame : RawFrame) (rest : list RawFrame) :
  isOpen s = false ->
  exportEnabled s = true ->
  openSucceeds w = true ->
  m_frames s = frame :: rest ->
  List.concat (groups w) = [] ->
  let s' := writeValues toString filePath w s in
  m_fieldCount s' = 0
  /\ csvContents s'
     = byteOrderMark ++ "RX Date/Time,"
       ++ toString (rxDateTime frame) "yyyy/MM/dd/ HH:mm:ss::zzz" ++ ","
       ++ String.concat ","
            (split (separatorSequence w) (fromUtf8 (data frame)))
       ++ newline
       ++ rowsText toString w 0 rest.
Proof.
  intros Hclosed Hen Hopen Hframes Hschema s'. subst s'.
  rewrite writeValues_fold, Hframes. simpl fold_left.
  rewrite writeFrame_creates by assumption.
  destruct (createCsvFile_success w frame s Hopen)
    as (Ha & _ & _ & Hfc & Hct & _).
  unfold schemaFields in Hfc, Hct. rewrite Hschema in Hfc, Hct.
  simpl in Hfc, Hct.
  set (c := createCsvFile toString filePath w frame s) in *.
  rewrite fold_writeFrame_attached by (apply attached_written; exact Ha).
  rewrite written_written.
  change (m_fieldCount (written (rowText toString w (m_fieldCount c) frame) c))
    with (m_fieldCount c).
  unfold written, set_frames, set_csvContents.
  cbn [m_fieldCount csvContents].
  rewrite Hfc, Hct. split; [reflexivity |].
  unfold rowText.
  rewrite fieldsText_dataColumns by apply split_nonempty.
  unfold dataColumns. cbv zeta.
  replace (0 <? 0 - Z.of_nat
             (List.length
                (split (separatorSequence w) (fromUtf8 (data frame)))))
    with false by (symmetry; apply Z.ltb_ge; lia).
  rewrite append_nil_r, !append_assoc. reflexivity.
Qed.

(** *** Flushes that write nothing *)

Lemma writeFrame_detached (w : World) (frame : RawFrame) (s : Exp) :
  streamDevice s = false ->
  negb (isOpen s) && exportEnabled s = false ->
  writeFrame toString filePath w frame s = s.
Proof.
  intros Hd Hno. unfold writeFrame. rewrite Hno.
  rewrite (stream_write_detached _ s) by exact Hd.
  rewrite (stream_write_detached _ s) by exact Hd.
  apply writeFields_detached. exact Hd.
Qed.

Lemma writeValues_detached (w : World) (s : Exp) :
  streamDevice s = false ->
  negb (isOpen s) && exportEnabled s = false ->
  writeValues toString filePath w s = set_frames [] s.
Proof.
  intros Hd Hno. rewrite writeValues_fold. f_equal.
  induction (m_frames s) as [|frame frames IH]; simpl; [reflexivity |].
  rewrite writeFrame_detached by assumption. exact IH.
Qed.

(** X6: with the export disabled and no file open, a flush drops the
    buffered frames: no file is created, nothing is written and nothing
    is reported. *)
Theorem writeValues_disabled_drops (w : World) (s : Exp) :
  isOpen s = false ->
  streamDevice s = false ->
  exportEnabled s = false ->
  writeValues toString filePath w s = set_frames [] s.
Proof.
  intros Hclosed Hd Hen. apply writeValues_detached; [exact Hd |].
  rewrite Hen. apply andb_false_r.
Qed.

Lemma writeFrame_failure (w : World) (frame : RawFrame) (s : Exp) :
  isOpen s = false ->
  streamDevice s = false ->
  exportEnabled s = true ->
  openSucceeds w = false ->
  writeFrame toString filePath w frame s
  = createCsvFile toString filePath w frame s.
Proof.
  intros Hclosed Hd Hen Hopen.
  destruct (createCsvFile_failure w frame s Hopen)
    as (_ & Hsd & _).
  unfold writeFrame. rewrite Hclosed, Hen. simpl negb. simpl andb.
  cbv iota. rewrite Hd in Hsd.
  rewrite (stream_write_detached _ (createCsvFile toString filePath w frame s))
    by exact Hsd.
  rewrite (stream_write_detached _ (createCsvFile toString filePath w frame s))
    by exact Hsd.
  apply writeFields_detached. exact Hsd.
Qed.

Lemma fold_writeFrame_failure (w : World) (frames : list RawFrame) :
  forall s : Exp,
    isOpen s = false ->
    streamDevice s = false ->
    exportEnabled s = true ->
    openSucceeds w = false ->
    let s' := fold_left
                (fun acc frame => writeFrame toString filePath w frame acc)
                frames s in
    isOpen s' = false
    /\ streamDevice s' = false
    /\ exportEnabled s' = true
    /\ m_fieldCount s' = m_fieldCount s
    /\ csvContents s' = csvContents s
    /\ count isAlert (log s')
       = (count isAlert (log s) + List.length frames)%nat
    /\ count isOpenChanged (log s') = count isOpenChanged (log s).
Proof.
  induction frames as [|frame frames IH]; intros s Hclosed Hd Hen Hopen;
    simpl.
  - repeat split; try assumption. lia.
  - rewrite writeFrame_failure by assumption.
    destruct (createCsvFile_failure w frame s Hopen)
      as (Ho & Hsd & _ & Hee & Hfc & Hct & Hal & Hoc).
    unfold isOpen, exportEnabled in *.
    destruct (IH (createCsvFile toString filePath w frame s))
      as (H1 & H2 & H3 & H4 & H5 & H6 & H7); try congruence.
    simpl in H1, H2, H3, H4, H5, H6, H7.
    repeat split; try congruence. rewrite H6, Hal. lia.
Qed.

(** X5: when the file cannot be opened, a flush shows one error message for
    each buffered frame, writes nothing, leaves the file closed and
    empties the buffer: the frames are lost. *)
Theorem writeValues_open_failure (w : World) (s : Exp) :
  isOpen s = false ->
  streamDevice s = false ->
  exportEnabled s = true ->
  openSucceeds w = false ->
  let s' := writeValues toString filePath w s in
  isOpen s' = false
  /\ m_frames s' = []
  /\ csvContents s' = csvContents s
  /\ m_fieldCount s' = m_fieldCount s
  /\ count isAlert (log s')
     = (count isAlert (log s) + List.length (m_frames s))%nat
  /\ count isOpenChanged (log s') = count isOpenChanged (log s).
Proof.
  intros Hclosed Hd Hen Hopen s'. subst s'. rewrite writeValues_fold.
  destruct (fold_writeFrame_failure w (m_frames s) s Hclosed Hd Hen Hopen)
    as (H1 & _ & _ & H4 & H5 & H6 & H7).
  unfold isOpen in *. simpl. repeat split; assumption.
Qed.

(** *** Closing the file *)

(** X8: [closeFile] on an open file first writes the row of every buffered
    frame, then resets the field count, closes the file and detaches the
    stream, and emits [openChanged] once; closing again changes
    nothing. *)
Theorem closeFile_drains (w : World) (s : Exp) :
  attached s ->
  let s' := closeFile toString filePath w s in
  isOpen s' = false
  /\ streamDevice s' = false
  /\ m_frames s' = []
  /\ m_fieldCount s' = 0
  /\ csvContents s'
     = csvContents s ++ rowsText toString w (m_fieldCount s) (m_frames s)
  /\ log s' = (log s ++ [Emit openChanged])%list
  /\ (forall w', closeFile toString filePath w' s' = s').
Proof.
  intros Ha s'. subst s'. pose proof Ha as [Hd Ho].
  assert (Hdrain : drainFrames toString filePath w 1 s
                   = set_frames []
                       (written (rowsText toString w (m_fieldCount s)
                                          (m_frames s)) s)).
  { simpl. destruct (m_frames s) as [|f fs] eqn:Hfs.
    - cbn [rowsText]. rewrite written_nil.
      destruct s; simpl in *. subst. reflexivity.
    - rewrite writeValues_attached by exact Ha. rewrite Hfs. reflexivity. }
  assert (Hc : closeFile toString filePath w s
               = Q_EMIT openChanged
                   (set_streamDevice false
                      (set_csvOpen false
                         (set_fieldCount 0
                            (drainFrames toString filePath w 1 s))))).
  { unfold closeFile, isOpen. rewrite Ho. reflexivity. }
  rewrite Hc, Hdrain.
  repeat split; intros w'; apply closeFile_not_open; reflexivity.
Qed.

(** *** Rows of frames that are not short *)

(** X7: A frame with at least as many fields as the field count is written
    in full: the row is the time stamp and the fields joined by commas,
    without padding, and no field is dropped; with the comma as the
    separator sequence and a payload of printable 7-bit characters, the
    row is the time stamp, a comma and the payload of the frame as it
    was received. *)
Theorem writeValues_full_row (w : World) (s : Exp)
        (pre post : list RawFrame) (frame : RawFrame) :
  let fields := split (separatorSequence w) (fromUtf8 (data frame)) in
  let row := String.concat "," fields in
  attached s ->
  m_frames s = (pre ++ frame :: post)%list ->
  m_fieldCount s <= Z.of_nat (List.length fields) ->
  csvContents (writeValues toString filePath w s)
  = csvContents s
    ++ rowsText toString w (m_fieldCount s) pre
    ++ (toString (rxDateTime frame) "yyyy/MM/dd/ HH:mm:ss::zzz" ++ ","
        ++ row ++ newline)
    ++ rowsText toString w (m_fieldCount s) post
  /\ (Forall commaFree fields ->
      columns row = Z.of_nat (List.length fields))
  /\ (separatorSequence w = "," ->
      plainAscii (data frame) = true ->
      row = data frame).
Proof.
  intros fields row Ha Hframes Hfull.
  assert (Hne : fields <> []) by apply split_nonempty.
  split; [| split].
  - rewrite writeValues_attached by exact Ha.
    rewrite Hframes, rowsText_app. simpl. unfold rowText. fold fields.
    rewrite fieldsText_dataColumns by exact Hne.
    unfold dataColumns. cbv zeta.
    replace (0 <? m_fieldCount s - Z.of_nat (List.length fields))
      with false by (symmetry; apply Z.ltb_ge; lia).
    rewrite append_nil_r. reflexivity.
  - intros Hfree. unfold columns, row.
    rewrite commaCount_concat by assumption.
    destruct fields; [congruence |]. simpl List.length. lia.
  - intros Hsep Hplain. unfold row, fields, fromUtf8. rewrite Hsep.
    apply concat_split_comma.
Qed.

(** *** The object along a run *)

Lemma writeFrame_open_same (w : World) (frame : RawFrame) (s : Exp) :
  isOpen s = true ->
  sameButContents s (writeFrame toString filePath w frame s).
Proof.
  intros Hopen. unfold writeFrame. rewrite Hopen. simpl negb. simpl andb.
  cbv iota.
  eapply sameButContents_trans; [| apply writeFields_same].
  eapply sameButContents_trans; apply stream_write_same.
Qed.

Lemma writeValues_open_same (w : World) (s : Exp) :
  isOpen s = true ->
  sameButContents (set_frames [] s) (writeValues toString filePath w s).
Proof.
  intros Hopen. rewrite writeValues_fold.
  assert (H : sameButContents s
                (fold_left
                   (fun acc frame => writeFrame toString filePath w frame acc)
                   (m_frames s) s)).
  { generalize (m_frames s). intros frames.
    assert (G : forall t, sameButContents s t ->
                sameButContents s
                  (fold_left
                     (fun acc frame =>
                        writeFrame toString filePath w frame acc) frames t)).
    { induction frames as [|f frames IH]; intros t Ht; simpl; [exact Ht |].
      apply IH. eapply sameButContents_trans; [exact Ht |].
      apply writeFrame_open_same. unfold sameButContents in Ht.
      rewrite Ht. exact Hopen. }
    apply G. apply sameButContents_refl. }
  unfold sameButContents in *. rewrite H at 1. reflexivity.
Qed.

(** X9: the field count is fixed while the file is open: an operation that
    finds the file open and leaves it open leaves the field count as it
    was, whatever the schema has become. *)
Theorem fieldCount_fixed_while_open (o : Op) (s : Exp) :
  isOpen s = true ->
  isOpen (step toString filePath o s) = true ->
  m_fieldCount (step toString filePath o s) = m_fieldCount s
  /\ csvFileName (step toString filePath o s) = csvFileName s.
Proof.
  intros Hopen Hstill. destruct o; unfold step in *.
  - unfold registerFrame.
    destruct (negb (connected w)), (negb (currentFrameValid w)),
      (negb (exportEnabled s)); split; reflexivity.
  - pose proof (writeValues_open_same w s Hopen) as H.
    unfold sameButContents in H. rewrite H. split; reflexivity.
  - unfold closeFile in Hstill. rewrite Hopen in Hstill. discriminate.
  - unfold isOpen in *. destruct enabled.
    + unfold setExportEnabled, exportEnabled, Q_EMIT, perform.
      cbn [m_exportEnabled set_exportEnabled negb andb].
      split; reflexivity.
    + unfold setExportEnabled, exportEnabled, isOpen, Q_EMIT, perform
        in Hstill.
      cbn [m_exportEnabled csvOpen set_exportEnabled negb andb] in Hstill.
      rewrite Hopen in Hstill. unfold closeFile, isOpen in Hstill.
      cbn [csvOpen set_frames set_streamDevice set_csvOpen Q_EMIT perform]
        in Hstill.
      discriminate.
  - unfold openCurrentCsv. destruct (isOpen s); split; reflexivity.
Qed.

Lemma writeFrame_closedWithoutFields (w : World) (frame : RawFrame)
      (s : Exp) :
  closedWithoutFields s ->
  closedWithoutFields (writeFrame toString filePath w frame s).
Proof.
  intros [Hpos Hzero].
  assert (Hc : closedWithoutFields (if negb (isOpen s) && exportEnabled s
                  then createCsvFile toString filePath w frame s else s)).
  { destruct (negb (isOpen s) && exportEnabled s); [| split; assumption].
    destruct (openSucceeds w) eqn:Hopen.
    - destruct (createCsvFile_success w frame s Hopen)
        as ([_ Ho] & _ & _ & Hfc & _).
      unfold closedWithoutFields, isOpen. rewrite Hfc, Ho.
      split; [lia | discriminate].
    - destruct (createCsvFile_failure w frame s Hopen)
        as (Ho & _ & _ & _ & Hfc & _).
      unfold closedWithoutFields, isOpen in *. rewrite Hfc, Ho.
      split; assumption. }
  unfold writeFrame.
  match goal with
  | |- closedWithoutFields (writeFields ?n ?j ?l ?t) =>
      pose proof (writeFields_same n l j t) as H1
  end.
  match type of H1 with
  | sameButContents (stream_write ?a (stream_write ?b ?t)) _ =>
      pose proof (stream_write_same a (stream_write b t)) as H2;
      pose proof (stream_write_same b t) as H3
  end.
  pose proof (sameButContents_trans _ _ _ H3
                (sameButContents_trans _ _ _ H2 H1)) as H.
  unfold sameButContents in H. rewrite H.
  unfold closedWithoutFields, isOpen in *. simpl. exact Hc.
Qed.

Lemma writeValues_closedWithoutFields (w : World) (s : Exp) :
  closedWithoutFields s ->
  closedWithoutFields (writeValues toString filePath w s).
Proof.
  intros Hs. rewrite writeValues_fold.
  assert (G : forall frames t, closedWithoutFields t ->
              closedWithoutFields
                (fold_left
                   (fun acc frame => writeFrame toString filePath w frame acc)
                   frames t)).
  { induction frames as [|f frames IH]; intros t Ht; simpl; [exact Ht |].
    apply IH. apply writeFrame_closedWithoutFields. exact Ht. }
  exact (G (m_frames s) s Hs).
Qed.

Lemma closeFile_closedWithoutFields (w : World) (s : Exp) :
  closedWithoutFields s ->
  closedWithoutFields (closeFile toString filePath w s).
Proof.
  intros Hs. unfold closeFile. destruct (isOpen s); [| exact Hs].
  split; simpl; [lia | reflexivity].
Qed.

Lemma step_closedWithoutFields (o : Op) (s : Exp) :
  closedWithoutFields s ->
  closedWithoutFields (step toString filePath o s).
Proof.
  intros Hs. destruct o; simpl.
  - unfold registerFrame.
    destruct (negb (connected w)), (negb (currentFrameValid w)),
      (negb (exportEnabled s)); exact Hs.
  - apply writeValues_closedWithoutFields. exact Hs.
  - apply closeFile_closedWithoutFields. exact Hs.
  - unfold setExportEnabled.
    match goal with
    | |- context [if ?b then _ else _] => destruct b
    end; [apply closeFile_closedWithoutFields |]; exact Hs.
  - unfold openCurrentCsv. destruct (isOpen s); exact Hs.
Qed.

(** X10: in every state the object reaches from its construction, the stream
    has a device exactly when the file is open, the field count is not
    negative, and it is 0 while no file is open. *)
Theorem reachable_invariant (ops : list Op) :
  let s := run toString filePath ops Export_ctor in
  streamDevice s = isOpen s
  /\ 0 <= m_fieldCount s
  /\ (isOpen s = false -> m_fieldCount s = 0).
Proof.
  intros s. split.
  - apply (run_consistent toString filePath ops Export_ctor). reflexivity.
  - subst s.
    assert (G : forall t, closedWithoutFields t ->
                closedWithoutFields (run toString filePath ops t)).
    { induction ops as [|o ops IH]; intros t Ht; simpl; [exact Ht |].
      apply IH. apply step_closedWithoutFields. exact Ht. }
    apply G. split; [simpl; lia | reflexivity].
Qed.

Lemma step_silenced (o : Op) (s : Exp) :
  silenced s ->
  enables o = false ->
  let s' := step toString filePath o s in
  silenced s'
  /\ csvContents s' = csvContents s
  /\ csvFileName s' = csvFileName s
  /\ count isOpenChanged (log s') = count isOpenChanged (log s)
  /\ (m_frames s' = [] \/ m_frames s' = m_frames s).
Proof.
  intros (Hen & Hclosed & Hd) Ho s'. subst s'.
  assert (Hsil : silenced s) by (repeat split; assumption).
  assert (Hemit : forall e t,
            isOpenChanged e = false ->
            count isOpenChanged (log (perform e t))
            = count isOpenChanged (log t)).
  { intros e t He. unfold count, perform. cbn [log].
    rewrite filter_app, length_app. cbn [filter]. rewrite He.
    cbn [List.length]. lia. }
  destruct o; unfold step.
  - replace (registerFrame w bytes s) with s.
    + repeat split; auto.
    + unfold registerFrame. rewrite Hen.
      destruct (negb (connected w)), (negb (currentFrameValid w));
        reflexivity.
  - rewrite writeValues_detached
      by (try assumption; rewrite Hen; apply andb_false_r).
    split; [exact Hsil |]. repeat split; auto.
  - rewrite closeFile_not_open by assumption.
    split; [exact Hsil |]. repeat split; auto.
  - destruct enabled; [discriminate |].
    replace (setExportEnabled toString filePath w false s)
      with (Q_EMIT enabledChanged (set_exportEnabled false s)).
    + split; [repeat split; assumption |].
      split; [reflexivity |]. split; [reflexivity |].
      split; [unfold Q_EMIT; rewrite Hemit by reflexivity; reflexivity
             | right; reflexivity].
    + unfold setExportEnabled, isOpen, exportEnabled, Q_EMIT, perform in *.
      cbn [m_exportEnabled csvOpen set_exportEnabled negb].
      rewrite Hclosed. reflexivity.
  - unfold openCurrentCsv. rewrite Hclosed.
    split; [repeat split; assumption |].
    split; [reflexivity |]. split; [reflexivity |].
    split; [destruct (csvOpen s); rewrite Hemit by reflexivity; reflexivity
           | right; reflexivity].
Qed.

Lemma run_silenced (ops : list Op) :
  forall s : Exp,
    silenced s ->
    forallb (fun o => negb (enables o)) ops = true ->
    let s' := run toString filePath ops s in
    silenced s'
    /\ csvContents s' = csvContents s
    /\ csvFileName s' = csvFileName s
    /\ count isOpenChanged (log s') = count isOpenChanged (log s)
    /\ (m_frames s' = [] \/ m_frames s' = m_frames s).
Proof.
  induction ops as [|o ops IH]; intros s Hs Hops; simpl in *.
  - repeat split; try apply Hs. right. reflexivity.
  - apply andb_true_iff in Hops as [Ho Hops]. apply negb_true_iff in Ho.
    destruct (step_silenced o s Hs Ho) as (H1 & H2 & H3 & H4 & H5).
    destruct (IH _ H1 Hops) as (G1 & G2 & G3 & G4 & G5).
    repeat split; try apply G1; try congruence.
    destruct G5 as [G5 | G5]; [left; exact G5 |].
    destruct H5 as [H5 | H5]; [left | right]; congruence.
Qed.

(** X11: once the export is disabled, and until it is enabled again, the
    object writes nothing and opens no file, whatever is called on it:
    the file stays closed with the text it had, [openChanged] is not
    emitted again, no frame is added to the buffer, and if the file was
    open when the export was disabled the buffer stays empty. *)
Theorem disabled_export_stays_quiet (w : World) (s : Exp)
        (ops : list Op) :
  streamDevice s = isOpen s ->
  forallb (fun o => negb (enables o)) ops = true ->
  let s1 := setExportEnabled toString filePath w false s in
  let s2 := run toString filePath ops s1 in
  exportEnabled s2 = false
  /\ isOpen s2 = false
  /\ csvContents s2 = csvContents s
  /\ csvFileName s2 = csvFileName s
  /\ count isOpenChanged (log s2) = count isOpenChanged (log s1)
  /\ (m_frames s2 = [] \/ m_frames s2 = m_frames s)
  /\ (isOpen s = true -> m_frames s2 = []).
Proof.
  intros Hcons Hops s1 s2.
  assert (H1 : silenced s1 /\ csvContents s1 = csvContents s
               /\ csvFileName s1 = csvFileName s
               /\ (m_frames s1 = [] \/ m_frames s1 = m_frames s)
               /\ (isOpen s = true -> m_frames s1 = [])).
  { subst s1. unfold setExportEnabled, silenced, isOpen, exportEnabled in *.
    simpl. destruct (csvOpen s) eqn:Hopen; simpl.
    - unfold closeFile, isOpen. simpl. rewrite Hopen. simpl.
      repeat split; auto.
    - rewrite Hopen. repeat split; auto. discriminate. }
  destruct H1 as (Hsil & Hct & Hname & Hfr & Hfr').
  destruct (run_silenced ops s1 Hsil Hops) as ((G1 & G2 & _) & G3 & G4 & G5 & G6).
  fold s2 in G1, G2, G3, G4, G5, G6.
  repeat split; try congruence.
  - destruct G6 as [G6 | G6]; [left; exact G6 |].
    destruct Hfr as [Hfr | Hfr]; [left | right]; congruence.
  - intros Hopen. destruct G6 as [G6 | G6]; [exact G6 |].
    rewrite G6. apply Hfr'. exact Hopen.
Qed.

End WithQt.

Lemma registerFrame_writeValues_witness :
  attached (registerFrame Samples.world "1,2,3" Samples.opened)
  /\ csvContents
       (writeValues Samples.toString Samples.filePath Samples.world
          (registerFrame Samples.world "1,2,3" Samples.opened))
     = "2022/03/14/ 15:09:26::535,1,2,3" ++ newline
  /\ m_frames (registerFrame Samples.world "1,2,3" Export_ctor) <> []
  /\ isOpen
       (writeValues Samples.toString Samples.filePath Samples.world
          (registerFrame Samples.world "1,2,3" Export_ctor)) = true.
Proof.
  assert (Ha : attached (registerFrame Samples.world "1,2,3" Samples.opened))
    by (split; reflexivity).
  assert (Hne : m_frames (registerFrame Samples.world "1,2,3" Export_ctor)
                <> []) by discriminate.
  split; [exact Ha |]. split.
  - rewrite (proj1 (proj2 (proj2
               (registerFrame_writeValues Samples.toString Samples.filePath
                  Samples.world "1,2,3"
                  (registerFrame Samples.world "1,2,3" Samples.opened))))
               Ha).
    vm_compute. reflexivity.
  - split; [exact Hne |].
    exact (proj1 (proj2 (proj2 (proj2
             (registerFrame_writeValues Samples.toString Samples.filePath
                Samples.world "1,2,3"
                (registerFrame Samples.world "1,2,3" Export_ctor))))
             eq_refl eq_refl eq_refl Hne)).
Defined.

Lemma writeValues_creates_file_witness :
  isOpen (registerFrame Samples.world "1,2,3" Export_ctor) = false
  /\ exportEnabled (registerFrame Samples.world "1,2,3" Export_ctor) = true
  /\ openSucceeds Samples.world = true
  /\ isOpen (writeValues Samples.toString Samples.filePath Samples.world
               (registerFrame Samples.world "1,2,3" Export_ctor)) = true.
Proof.
  repeat (split; [reflexivity |]).
  exact (proj1 (writeValues_creates_file Samples.toString Samples.filePath
                  Samples.world
                  (registerFrame Samples.world "1,2,3" Export_ctor)
                  (mkRawFrame "1,2,3" (currentDateTime Samples.world)) []
                  eq_refl eq_refl eq_refl eq_refl)).
Defined.

Lemma createCsvFile_header_witness :
  openSucceeds Samples.world = true
  /\ List.concat (groups Samples.world) <> []
  /\ Forall commaFree (snd (schemaFields Samples.world))
  /\ columns (String.concat ","
                (titleCells 0 (snd (schemaFields Samples.world))))
     = m_fieldCount
         (createCsvFile Samples.toString Samples.filePath Samples.world
            (mkRawFrame "1,2,3" (currentDateTime Samples.world))
            Export_ctor).
Proof.
  assert (Hs : List.concat (groups Samples.world) <> []) by discriminate.
  assert (Hf : Forall commaFree (snd (schemaFields Samples.world)))
    by (repeat constructor).
  split; [reflexivity |]. split; [exact Hs |]. split; [exact Hf |].
  exact (proj1 (proj2 (createCsvFile_header Samples.toString
                         Samples.filePath Samples.world
                         (mkRawFrame "1,2,3" (currentDateTime Samples.world))
                         Export_ctor eq_refl Hs Hf))).
Defined.

Lemma writeValues_empty_schema_witness :
  List.concat (groups Samples.world_no_schema) = []
  /\ m_fieldCount
       (writeValues Samples.toString Samples.filePath
          Samples.world_no_schema
          (registerFrame Samples.world_no_schema "1,2,3" Export_ctor)) = 0.
Proof.
  split; [reflexivity |].
  exact (proj1 (writeValues_empty_schema Samples.toString Samples.filePath
                  Samples.world_no_schema
                  (registerFrame Samples.world_no_schema "1,2,3" Export_ctor)
                  (mkRawFrame "1,2,3"
                     (currentDateTime Samples.world_no_schema)) []
                  eq_refl eq_refl eq_refl eq_refl eq_refl)).
Defined.

Lemma writeValues_disabled_drops_witness :
  let s := setExportEnabled Samples.toString Samples.filePath Samples.world
             false (registerFrame Samples.world "1,2,3" Export_ctor) in
  (isOpen s = false /\ streamDevice s = false /\ exportEnabled s = false)
  /\ m_frames s <> []
  /\ writeValues Samples.toString Samples.filePath Samples.world s
     = set_frames [] s.
Proof.
  split; [repeat split |]. split; [discriminate |].
  exact (writeValues_disabled_drops Samples.toString Samples.filePath
           Samples.world
           (setExportEnabled Samples.toString Samples.filePath
              Samples.world false
              (registerFrame Samples.world "1,2,3" Export_ctor))
           eq_refl eq_refl eq_refl).
Defined.

Lemma writeValues_open_failure_witness :
  let s := registerFrame Samples.world_unwritable "4,5,6"
             (registerFrame Samples.world_unwritable "1,2,3" Export_ctor) in
  openSucceeds Samples.world_unwritable = false
  /\ count isAlert
       (log (writeValues Samples.toString Samples.filePath
               Samples.world_unwritable s))
     = (count isAlert (log s) + 2)%nat.
Proof.
  split; [reflexivity |].
  exact (proj1 (proj2 (proj2 (proj2 (proj2
           (writeValues_open_failure Samples.toString Samples.filePath
              Samples.world_unwritable
              (registerFrame Samples.world_unwritable "4,5,6"
                 (registerFrame Samples.world_unwritable "1,2,3"
                    Export_ctor))
              eq_refl eq_refl eq_refl eq_refl)))))).
Defined.

Lemma closeFile_drains_witness :
  attached (registerFrame Samples.world "1,2,3" Samples.opened)
  /\ m_frames (registerFrame Samples.world "1,2,3" Samples.opened) <> []
  /\ isOpen (closeFile Samples.toString Samples.filePath Samples.world
               (registerFrame Samples.world "1,2,3" Samples.opened))
     = false.
Proof.
  assert (Ha : attached (registerFrame Samples.world "1,2,3" Samples.opened))
    by (split; reflexivity).
  split; [exact Ha |]. split; [discriminate |].
  exact (proj1 (closeFile_drains Samples.toString Samples.filePath
                  Samples.world
                  (registerFrame Samples.world "1,2,3" Samples.opened) Ha)).
Defined.

Lemma writeValues_full_row_witness :
  attached (registerFrame Samples.world "1,2,3,4" Samples.opened)
  /\ 3 <= Z.of_nat (List.length (split "," "1,2,3,4"))
  /\ plainAscii "1,2,3,4" = true
  /\ String.concat "," (split "," "1,2,3,4") = "1,2,3,4".
Proof.
  assert (Ha : attached (registerFrame Samples.world "1,2,3,4"
                                       Samples.opened))
    by (split; reflexivity).
  assert (Hfull : 3 <= Z.of_nat (List.length (split "," "1,2,3,4")))
    by (simpl; lia).
  split; [exact Ha |]. split; [exact Hfull |]. split; [reflexivity |].
  exact (proj2 (proj2 (writeValues_full_row Samples.toString
                         Samples.filePath Samples.world
                         (registerFrame Samples.world "1,2,3,4"
                                        Samples.opened)
                         [] []
                         (mkRawFrame "1,2,3,4"
                            (currentDateTime Samples.world))
                         Ha eq_refl Hfull)) eq_refl eq_refl).
Defined.

Lemma fieldCount_fixed_while_open_witness :
  let s := registerFrame Samples.world "1,2,3" Samples.opened in
  isOpen s = true
  /\ isOpen (step Samples.toString Samples.filePath
               (OpWriteValues Samples.world_no_schema) s) = true
  /\ m_fieldCount (step Samples.toString Samples.filePath
                     (OpWriteValues Samples.world_no_schema) s) = 3.
Proof.
  split; [reflexivity |]. split; [reflexivity |].
  exact (proj1 (fieldCount_fixed_while_open Samples.toString
                  Samples.filePath (OpWriteValues Samples.world_no_schema)
                  (registerFrame Samples.world "1,2,3" Samples.opened)
                  eq_refl eq_refl)).
Defined.

Lemma disabled_export_stays_quiet_witness :
  let s := registerFrame Samples.world "1,2,3" Samples.opened in
  let ops := [OpRegisterFrame Samples.world "4,5,6";
              OpWriteValues Samples.world;
              OpCloseFile Samples.world; OpOpenCurrentCsv] in
  streamDevice s = isOpen s
  /\ forallb (fun o => negb (enables o)) ops = true
  /\ csvContents
       (run Samples.toString Samples.filePath ops
          (setExportEnabled Samples.toString Samples.filePath
             Samples.world false s))
     = csvContents s.
Proof.
  split; [reflexivity |]. split; [reflexivity |].
  exact (proj1 (proj2 (proj2
           (disabled_export_stays_quiet Samples.toString Samples.filePath
              Samples.world
              (registerFrame Samples.world "1,2,3" Samples.opened)
              [OpRegisterFrame Samples.world "4,5,6";
               OpWriteValues Samples.world;
               OpCloseFile Samples.world; OpOpenCurrentCsv]
              eq_refl eq_refl)))).
Defined.

End CsvExportProps.

(* ================================================================= *)
(** ** Further properties of the network endpoint *)

Module NetworkProps.

Import Network NetworkSpec.
Local Open Scope Z_scope.

(** X12: selecting the socket type by index and reading the index back: for
    index 0 or 1 the index read back is the index set, with one
    [socketTypeChanged] signal; and setting the index that was read
    leaves the socket type as it was, for every socket type. *)
Theorem socketTypeIndex_roundtrip (index : Z) (s : Net) :
  index = 0 \/ index = 1 ->
  eval socketTypeIndex (exec (setSocketTypeIndex index) s) = index
  /\ log (exec (setSocketTypeIndex index) s)
     = log s ++ [Emit socketTypeChanged]
  /\ m_socketType (exec (setSocketTypeIndex (eval socketTypeIndex s)) s)
     = m_socketType s.
Proof.
  intros [-> | ->]; (split; [reflexivity | split; [reflexivity |]]);
    net_unfold; destruct (m_socketType s) eqn:E; simpl;
    try reflexivity; exact E.
Qed.

Lemma socketTypeIndex_roundtrip_witness :
  (1 = 0 \/ 1 = 1)
  /\ eval socketTypeIndex (exec (setSocketTypeIndex 1) fresh) = 1.
Proof.
  split; [right; reflexivity |].
  exact (proj1 (socketTypeIndex_roundtrip 1 fresh (or_intror eq_refl))).
Defined.

Lemma lookupFinished_resolved (info : QHostInfo) (s : Net) :
  error info = NoError ->
  addresses info <> [] ->
  exec (lookupFinished info) s
  = set_log (log s ++ [Emit lookupActiveChanged; Emit addressChanged])
      (set_hostExists true (set_lookupActive false s)).
Proof.
  intros Herr Haddr. net_unfold. rewrite Herr.
  destruct (addresses info) as [|a l]; [congruence |].
  replace (1 <=? Z.of_nat (List.length (a :: l))) with true
    by (symmetry; apply Z.leb_le; simpl List.length; lia).
  simpl. rewrite <- app_assoc. reflexivity.
Qed.

(** X13: A lookup that ends without error and with at least one address
    clears [m_lookupActive], marks the host as existing and emits
    [lookupActiveChanged] and [addressChanged], in that order; the
    configuration is then valid exactly when the TCP port is not 0. *)
Theorem lookupFinished_success (info : QHostInfo) (s : Net) :
  error info = NoError ->
  addresses info <> [] ->
  let s' := exec (lookupFinished info) s in
  s' = set_log (log s ++ [Emit lookupActiveChanged; Emit addressChanged])
         (set_hostExists true (set_lookupActive false s))
  /\ eval configurationOk s' = (0 <? m_tcpPort s).
Proof.
  intros Herr Haddr s'. subst s'.
  rewrite lookupFinished_resolved by assumption.
  split; [reflexivity |]. net_unfold. simpl. apply andb_true_r.
Qed.

Lemma lookupFinished_success_witness :
  error (mkHostInfo NoError ["10.0.0.7"%string]) = NoError
  /\ addresses (mkHostInfo NoError ["10.0.0.7"%string]) <> []
  /\ eval configurationOk
       (exec (lookupFinished (mkHostInfo NoError ["10.0.0.7"%string]))
             (exec (Network_ctor Samples.isNull Samples.simplified
                                 23 0 53) fresh)) = true.
Proof.
  assert (Hne : addresses (mkHostInfo NoError ["10.0.0.7"%string]) <> [])
    by discriminate.
  split; [reflexivity |]. split; [exact Hne |].
  exact (proj2 (lookupFinished_success
                  (mkHostInfo NoError ["10.0.0.7"%string])
                  (exec (Network_ctor Samples.isNull Samples.simplified
                                      23 0 53) fresh)
                  eq_refl Hne)).
Defined.

Section WithQt.

Variable isNull : string -> bool.
Variable simplified : string -> string.
Variable defaultAddress : string.

(** X14: the answer of a lookup is not matched with the address it was
    requested for: after two host names were set in a row, the first
    answer that resolves marks the host as existing and clears
    [m_lookupActive], with the second name as the remote address and two
    lookups requested. *)
Theorem lookupFinished_unmatched (h1 h2 : string) (info : QHostInfo)
        (s : Net) :
  isNull h1 = true ->
  isNull h2 = true ->
  error info = NoError ->
  addresses info <> [] ->
  let s' := exec (lookupFinished info)
              (exec (setRemoteAddress isNull simplified h2)
                 (exec (setRemoteAddress isNull simplified h1) s)) in
  m_address s' = h2
  /\ m_hostExists s' = true
  /\ m_lookupActive s' = false
  /\ count isLookup (log s') = (count isLookup (log s) + 2)%nat
  /\ filter isLookup (log s')
     = filter isLookup (log s)
       ++ [LookupHost (simplified h1); LookupHost (simplified h2)].
Proof.
  intros H1 H2 Herr Haddr s'.
  assert (Hs : s' = exec (lookupFinished info)
                      (exec (setRemoteAddress isNull simplified h2)
                         (exec (setRemoteAddress isNull simplified h1) s)))
    by reflexivity.
  rewrite lookupFinished_resolved in Hs by assumption.
  clearbody s'. subst s'. net_unfold. rewrite H1, H2. simpl.
  unfold count. rewrite !filter_app, !length_app. simpl.
  repeat split; try lia.
  repeat rewrite <- app_assoc. reflexivity.
Qed.

(** X15: an address that parses, set while a lookup is pending, marks the
    host as existing at once and leaves [m_lookupActive] set; the failure
    of the pending lookup then clears [m_lookupActive] and leaves the
    host marked as existing. *)
Theorem literal_address_during_lookup (h ip : string) (info : QHostInfo)
        (s : Net) :
  isNull h = true ->
  isNull ip = false ->
  error info <> NoError \/ addresses info = [] ->
  let s1 := exec (setRemoteAddress isNull simplified ip)
              (exec (setRemoteAddress isNull simplified h) s) in
  let s2 := exec (lookupFinished info) s1 in
  m_hostExists s1 = true
  /\ m_lookupActive s1 = true
  /\ m_address s2 = ip
  /\ m_hostExists s2 = true
  /\ m_lookupActive s2 = false.
Proof.
  intros Hh Hip Hfail s1 s2.
  subst s2 s1. net_unfold. rewrite Hh, Hip. simpl.
  destruct Hfail as [Herr | Hnone].
  - destruct (error info); [congruence | |]; repeat split.
  - rewrite Hnone. destruct (error info); repeat split.
Qed.

(** X16: the constructor: the remote address is empty, the socket type is
    TCP, the ports are the defaults; since the empty address does not
    parse, a lookup of it is requested, [m_lookupActive] is set and the
    configuration is not valid. *)
Theorem Network_ctor_state (tcp udpLocal udpRemote : Z) :
  isNull "" = true ->
  let s := exec (Network_ctor isNull simplified tcp udpLocal udpRemote)
                fresh in
  m_address s = ""%string
  /\ m_socketType s = TcpSocket
  /\ m_tcpPort s = quint16 tcp
  /\ m_udpLocalPort s = quint16 udpLocal
  /\ m_udpRemotePort s = quint16 udpRemote
  /\ m_udpMulticast s = false
  /\ m_hostExists s = false
  /\ m_lookupActive s = true
  /\ eval configurationOk s = false
  /\ filter isLookup (log s) = [LookupHost (simplified "")].
Proof.
  intros Hnull s. subst s. unfold Network_ctor. net_unfold.
  rewrite Hnull. simpl. rewrite andb_false_r. repeat split.
Qed.

Lemma step_connection_keeps (o : Op) (s : Net) :
  isConnectionOp o = true ->
  set_log (log s) (step isNull simplified defaultAddress o s) = s
  /\ filter isLookup (log (step isNull simplified defaultAddress o s))
     = filter isLookup (log s).
Proof.
  intros Ho. destruct s as [a tp ul ur he mc la st te ue l].
  destruct o; simpl in Ho; try discriminate; simpl; net_unfold; simpl.
  - destruct st; simpl; try destruct mc; simpl;
      rewrite !filter_app; simpl; rewrite ?app_nil_r; split; reflexivity.
  - rewrite !filter_app; simpl; rewrite ?app_nil_r; split; reflexivity.
  - destruct from; destruct st; simpl;
      rewrite !filter_app; simpl; rewrite ?app_nil_r; split; reflexivity.
Qed.

(** X17: opening, disconnecting and socket errors never touch the
    configuration: along any run of these operations the address, the
    ports, the socket type, the multicast flag and the two lookup flags
    keep their values, and no lookup is requested. *)
Theorem connection_ops_keep_configuration (ops : list Op) (s : Net) :
  forallb isConnectionOp ops = true ->
  let s' := run isNull simplified defaultAddress ops s in
  set_log (log s) s' = s
  /\ filter isLookup (log s') = filter isLookup (log s)
  /\ eval configurationOk s' = eval configurationOk s.
Proof.
  intros Hops s'. subst s'.
  assert (G : set_log (log s) (run isNull simplified defaultAddress ops s) = s
              /\ filter isLookup
                   (log (run isNull simplified defaultAddress ops s))
                 = filter isLookup (log s)).
  { revert s. induction ops as [|o ops IH]; intros s; simpl in *.
    - split; [destruct s |]; reflexivity.
    - apply andb_true_iff in Hops as [Ho Hops].
      destruct (step_connection_keeps o s Ho) as [Hk Hl].
      destruct (IH Hops (step isNull simplified defaultAddress o s))
        as [IHk IHl].
      split; [| congruence].
      transitivity
        (set_log (log s)
           (set_log (log (step isNull simplified defaultAddress o s))
              (run isNull simplified defaultAddress ops
                 (step isNull simplified defaultAddress o s))));
        [reflexivity |].
      rewrite IHk. exact Hk. }
  destruct G as [Gk Gl]. split; [exact Gk |]. split; [exact Gl |].
  set (r := run isNull simplified defaultAddress ops s) in *.
  clearbody r.
  assert (H : m_tcpPort s = m_tcpPort r /\ m_hostExists s = m_hostExists r)
    by (rewrite <- Gk; split; reflexivity).
  destruct H as [Hp Hh]. net_unfold. simpl. rewrite Hp, Hh. reflexivity.
Qed.

End WithQt.

Lemma lookupFinished_unmatched_witness :
  Samples.isNull "alpha.local" = true
  /\ Samples.isNull "beta.local" = true
  /\ m_hostExists
       (exec (lookupFinished (mkHostInfo NoError ["10.0.0.7"%string]))
          (exec (setRemoteAddress Samples.isNull Samples.simplified
                                  "beta.local")
             (exec (setRemoteAddress Samples.isNull Samples.simplified
                                     "alpha.local") fresh))) = true.
Proof.
  assert (Hne : addresses (mkHostInfo NoError ["10.0.0.7"%string]) <> [])
    by discriminate.
  split; [reflexivity |]. split; [reflexivity |].
  exact (proj1 (proj2 (lookupFinished_unmatched Samples.isNull
                         Samples.simplified "alpha.local" "beta.local"
                         (mkHostInfo NoError ["10.0.0.7"%string]) fresh
                         eq_refl eq_refl eq_refl Hne))).
Defined.

Lemma literal_address_during_lookup_witness :
  Samples.isNull "alpha.local" = true
  /\ Samples.isNull "10.0.0.7" = false
  /\ m_hostExists
       (exec (lookupFinished (mkHostInfo HostNotFound []))
          (exec (setRemoteAddress Samples.isNull Samples.simplified
                                  "10.0.0.7")
             (exec (setRemoteAddress Samples.isNull Samples.simplified
                                     "alpha.local") fresh))) = true.
Proof.
  split; [reflexivity |]. split; [reflexivity |].
  exact (proj1 (proj2 (proj2 (proj2
           (literal_address_during_lookup Samples.isNull
              Samples.simplified "alpha.local" "10.0.0.7"
              (mkHostInfo HostNotFound []) fresh
              eq_refl eq_refl (or_intror eq_refl)))))).
Defined.

Lemma Network_ctor_state_witness :
  Samples.isNull "" = true
  /\ m_lookupActive
       (exec (Network_ctor Samples.isNull Samples.simplified
                           Samples.defaultTcpPort
                           Samples.defaultUdpLocalPort
                           Samples.defaultUdpRemotePort) fresh) = true.
Proof.
  split; [reflexivity |].
  exact (proj1 (proj2 (proj2 (proj2 (proj2 (proj2 (proj2 (proj2
           (Network_ctor_state Samples.isNull Samples.simplified
              Samples.defaultTcpPort Samples.defaultUdpLocalPort
              Samples.defaultUdpRemotePort eq_refl))))))))).
Defined.

Lemma connection_ops_keep_configuration_witness :
  forallb isConnectionOp
    [OpOpenNetworkPort; OpErrorOccurred Udp 1; OpDisconnectDevice;
     OpOpenNetworkPort] = true
  /\ eval configurationOk
       (run Samples.isNull Samples.simplified Samples.defaultAddress
          [OpOpenNetworkPort; OpErrorOccurred Udp 1; OpDisconnectDevice;
           OpOpenNetworkPort]
          (exec (setRemoteAddress Samples.isNull Samples.simplified
                                  "10.0.0.7") fresh))
     = eval configurationOk
         (exec (setRemoteAddress Samples.isNull Samples.simplified
                                 "10.0.0.7") fresh).
Proof.
  split; [reflexivity |].
  exact (proj2 (proj2 (connection_ops_keep_configuration Samples.isNull
                         Samples.simplified Samples.defaultAddress
                         [OpOpenNetworkPort; OpErrorOccurred Udp 1;
                          OpDisconnectDevice; OpOpenNetworkPort]
                         (exec (setRemoteAddress Samples.isNull
                                  Samples.simplified "10.0.0.7") fresh)
                         eq_refl))).
Defined.

End NetworkProps.
